(** * check_format.py: the format checker of Exercise Sheet 4

    A shallow embedding of [check_format.py] (literal-assignment parsing and
    the two schema checks) together with the part of CPython's
    [ast.literal_eval] it relies on.

    - Python [int] is [Z]; [float] is the kernel's binary64 [float];
      [str] is [string] (the UTF-8 bytes of the text).
    - Reading and parsing a file ([open], [ast.parse]) is an input of the
      model: a [source] is the outcome of those two steps.
    - [repr] of a value and [str] of an exception depend on the interpreter
      (hash order of sets, addresses of AST nodes in messages, shortest float
      digits), so both are parameters of the development.
    - [ast.literal_eval] is the one of CPython 3.9 to 3.13.
    - Printing an [int] of more than 4300 decimal digits ([str], [repr], an
      f-string) raises [ValueError], as CPython does by default; a
      hexadecimal literal can denote such an [int].  The indices and the sizes
      the checker prints are too small for that.
    - [main] runs on a file system given as a function from paths to the
      outcome of opening them; what it prints is the list of lines it returns
      with its status. *)

From Stdlib Require Import ZArith List String Ascii Bool Lia.
From Stdlib Require Import Floats DecimalString.
Import ListNotations.

#[local] Set Warnings "-register-all,-inexact-float".

Local Open Scope string_scope.
Local Open Scope Z_scope.

(** ** Python values *)

(** The objects [ast.literal_eval] can build.  A [VSet] lists its members and a
    [VDict] its items in insertion order, without duplicates. *)
Inductive value : Type :=
| VInt (n : Z)
| VBool (b : bool)
| VFloat (x : float)
| VComplex (re im : float)
| VStr (s : string)
| VBytes (s : string)
| VNone
| VEllipsis
| VList (items : list value)
| VTuple (items : list value)
| VSet (items : list value)
| VDict (items : list (value * value)).

(** [type(v).__name__] *)
Definition type_name (v : value) : string :=
  match v with
  | VInt _ => "int"
  | VBool _ => "bool"
  | VFloat _ => "float"
  | VComplex _ _ => "complex"
  | VStr _ => "str"
  | VBytes _ => "bytes"
  | VNone => "NoneType"
  | VEllipsis => "ellipsis"
  | VList _ => "list"
  | VTuple _ => "tuple"
  | VSet _ => "set"
  | VDict _ => "dict"
  end.

(** [isinstance(v, int)]: [bool] is a subclass of [int]. *)
Definition isinstance_int (v : value) : bool :=
  match v with
  | VInt _ | VBool _ => true
  | _ => false
  end.

(** [isinstance(v, float)] *)
Definition isinstance_float (v : value) : bool :=
  match v with
  | VFloat _ => true
  | _ => false
  end.

(** The integer an instance of [int] stands for ([False] is 0, [True] is 1). *)
Definition int_value (v : value) : option Z :=
  match v with
  | VInt n => Some n
  | VBool b => Some (Z.b2z b)
  | _ => None
  end.

(** The text of [str(n)] for an [int]: decimal digits, with a leading minus
    sign. *)
Definition str_int (n : Z) : string :=
  NilZero.string_of_int (Z.to_int n).

(** [str(i)] for an index produced by [enumerate]. *)
Definition str_nat (i : nat) : string :=
  str_int (Z.of_nat i).

(** ** The syntax trees of module [ast] *)

Module ast.

Inductive unaryop : Type := Invert | Not | UAdd | USub.

Inductive operator : Type :=
| Add | Sub | Mult | MatMult | Div | Mod | Pow
| LShift | RShift | BitOr | BitXor | BitAnd | FloorDiv.

(** Expression nodes.  [Set_] is [ast.Set]; a [Dict] key is [None] for a
    [**mapping] item; [OtherExpr] stands for every node class that neither the
    checker nor [literal_eval] inspects (comparisons, lambdas, comprehensions,
    f-strings, ...). *)
Inductive expr : Type :=
| Constant (value : value)
| Name (id : string)
| Tuple (elts : list expr)
| List (elts : list expr)
| Set_ (elts : list expr)
| Dict (keys : list (option expr)) (values : list expr)
| Call (func : expr) (args : list expr) (keywords : list (option string * expr))
| BinOp (left : expr) (op : operator) (right : expr)
| UnaryOp (op : unaryop) (operand : expr)
| Attribute (value : expr) (attr : string)
| Subscript (value : expr) (slice : expr)
| Starred (value : expr)
| OtherExpr.

(** Statement nodes; [OtherStmt] stands for the classes not listed. *)
Inductive stmt : Type :=
| Assign (targets : list expr) (value : expr)
| AugAssign (target : expr) (op : operator) (value : expr)
| AnnAssign (target : expr) (annotation : expr) (value : option expr)
| Expr (value : expr)
| Import (names : list string)
| ImportFrom (module : option string) (names : list string)
| If (test : expr) (body orelse : list stmt)
| Pass
| OtherStmt.

End ast.

(** ** Exceptions *)

Inductive exn : Type :=
| ValueError (node : option ast.expr)   (* malformed node or string *)
| ValueError_digits                     (* exceeds the limit for integer string conversion *)
| TypeError (v : value)                 (* unhashable type *)
| OverflowError                         (* int too large to convert to float *)
| KeyError (key : string).

Inductive result (A : Type) : Type :=
| Ok (a : A)
| Raise (e : exn).

Arguments Ok {A} a.
Arguments Raise {A} e.

Definition bind {A B : Type} (c : result A) (k : A -> result B) : result B :=
  match c with
  | Ok a => k a
  | Raise e => Raise e
  end.

Notation "x <- c ;; k" := (bind c (fun x => k))
  (at level 61, c at next level, right associativity).

(** ** The limit on the digits of an integer *)

(** [sys.get_int_max_str_digits()], at CPython's default. *)
Definition int_max_str_digits : Z := 4300.

(** The least natural number with more digits than the limit. *)
Definition digit_bound : Z := Eval vm_compute in 10 ^ int_max_str_digits.

(** An [int] with more decimal digits than the limit. *)
Definition exceeds_digits (n : Z) : bool := digit_bound <=? Z.abs n.

(** [str(n)] for an [int]. *)
Definition str (n : Z) : result string :=
  if exceeds_digits n then Raise ValueError_digits else Ok (str_int n).

(** [f"{v}"] for an instance of [int]. *)
Definition format_int (v : value) : result string :=
  match v with
  | VInt n => str n
  | VBool true => Ok "True"
  | VBool false => Ok "False"
  | _ => Ok ""
  end.

(** A value whose [repr] has to print an [int] beyond the limit. *)
Fixpoint holds_long_int (v : value) : bool :=
  match v with
  | VInt n => exceeds_digits n
  | VList items | VTuple items | VSet items => existsb holds_long_int items
  | VDict items =>
      (fix any (l : list (value * value)) : bool :=
         match l with
         | [] => false
         | (k, x) :: l' => holds_long_int k || holds_long_int x || any l'
         end) items
  | _ => false
  end.

(** ** Hashing and equality of values, as [set] and [dict] use them *)

(** The first component of [v] that has no hash, if any. *)
Fixpoint unhashable (v : value) : option value :=
  match v with
  | VList _ | VSet _ | VDict _ => Some v
  | VTuple items =>
      (fix first (l : list value) : option value :=
         match l with
         | [] => None
         | x :: l' =>
             match unhashable x with
             | Some u => Some u
             | None => first l'
             end
         end) items
  | _ => None
  end.

(** [x == n] for a float and an int: the comparison is exact. *)
Definition float_eq_int (x : float) (n : Z) : bool :=
  match Prim2SF x with
  | S754_zero _ => n =? 0
  | S754_finite s m e =>
      let mz := if s then Z.neg m else Z.pos m in
      if 0 <=? e then n =? mz * 2 ^ e else n * 2 ^ (- e) =? mz
  | _ => false
  end.

(** A number as its real part (an exact integer or a float) and its
    imaginary part. *)
Definition number_parts (v : value) : option ((Z + float) * float) :=
  match v with
  | VInt n => Some (inl n, PrimFloat.zero)
  | VBool b => Some (inl (Z.b2z b), PrimFloat.zero)
  | VFloat x => Some (inr x, PrimFloat.zero)
  | VComplex re im => Some (inr re, im)
  | _ => None
  end.

Definition real_eq (a b : Z + float) : bool :=
  match a, b with
  | inl m, inl n => m =? n
  | inl m, inr y => float_eq_int y m
  | inr x, inl n => float_eq_int x n
  | inr x, inr y => PrimFloat.eqb x y
  end.

(** [a == b] on hashable values. *)
Fixpoint key_eq (a b : value) : bool :=
  match number_parts a, number_parts b with
  | Some (ra, ia), Some (rb, ib) => real_eq ra rb && PrimFloat.eqb ia ib
  | _, _ =>
      match a, b with
      | VStr s, VStr t => String.eqb s t
      | VBytes s, VBytes t => String.eqb s t
      | VNone, VNone => true
      | VEllipsis, VEllipsis => true
      | VTuple la, VTuple lb =>
          (fix all2 (l : list value) (r : list value) : bool :=
             match l, r with
             | [], [] => true
             | x :: l', y :: r' => key_eq x y && all2 l' r'
             | _, _ => false
             end) la lb
      | _, _ => false
      end
  end.

(** [s.add(v)] on the members of a set. *)
Definition set_add (v : value) (members : list value) : result (list value) :=
  match unhashable v with
  | Some u => Raise (TypeError u)
  | None => Ok (if existsb (key_eq v) members then members else (members ++ [v])%list)
  end.

(** [d[k] = v] on the items of a dict: an equal key keeps its place and its
    first spelling. *)
Fixpoint dict_store (k v : value) (items : list (value * value)) : list (value * value) :=
  match items with
  | [] => [(k, v)]
  | (k', v') :: rest =>
      if key_eq k k' then (k', v) :: rest else (k', v') :: dict_store k v rest
  end.

Definition dict_setitem (k v : value) (items : list (value * value))
  : result (list (value * value)) :=
  match unhashable k with
  | Some u => Raise (TypeError u)
  | None => Ok (dict_store k v items)
  end.

(** [list(it)] / [tuple(it)]: the first exception of the iterator wins. *)
Fixpoint collect (it : list (result value)) : result (list value) :=
  match it with
  | [] => Ok []
  | c :: it' => v <- c ;; vs <- collect it' ;; Ok (v :: vs)
  end.

(** [set(it)] *)
Fixpoint set_of (it : list (result value)) (members : list value) : result (list value) :=
  match it with
  | [] => Ok members
  | c :: it' => v <- c ;; members' <- set_add v members ;; set_of it' members'
  end.

(** [dict(zip(ks, vs))]: key, value, store, and so on. *)
Fixpoint dict_of_zip (ks vs : list (result value)) (items : list (value * value))
  : result (list (value * value)) :=
  match ks, vs with
  | ck :: ks', cv :: vs' =>
      k <- ck ;; v <- cv ;; items' <- dict_setitem k v items ;;
      dict_of_zip ks' vs' items'
  | _, _ => Ok items
  end.

(** ** Arithmetic of [literal_eval]: signs, and real plus or minus imaginary *)

(** [float(n)]: round to nearest even, [OverflowError] beyond the range. *)
Definition float_of_int (n : Z) : result float :=
  match binary_normalize prec emax n 0 false with
  | S754_infinity _ => Raise OverflowError
  | sf => Ok (SF2Prim sf)
  end.

(** [+ operand] *)
Definition pos (v : value) : value := v.

(** [- operand] on the numbers [_convert_num] returns. *)
Definition neg (v : value) : value :=
  match v with
  | VInt n => VInt (- n)
  | VFloat x => VFloat (- x)
  | VComplex re im => VComplex (- re) (- im)
  | _ => v
  end.

(** [left + right] and [left - right] for a real [left] and a complex
    [right]: [left] is first converted to a complex number. *)
Definition real_as_float (v : value) : option (result float) :=
  match v with
  | VInt n => Some (float_of_int n)
  | VFloat x => Some (Ok x)
  | _ => None
  end.

Definition complex_add (l : float) (re im : float) : value :=
  VComplex (l + re) (PrimFloat.zero + im).

Definition complex_sub (l : float) (re im : float) : value :=
  VComplex (l - re) (PrimFloat.zero - im).

(** ** [ast.literal_eval] *)

Import ast.

Definition _convert_num (node : expr) : result value :=
  match node with
  | Constant (VInt n) => Ok (VInt n)
  | Constant (VFloat x) => Ok (VFloat x)
  | Constant (VComplex re im) => Ok (VComplex re im)
  | _ => Raise (ValueError (Some node))
  end.

Definition _convert_signed_num (node : expr) : result value :=
  match node with
  | UnaryOp UAdd operand => v <- _convert_num operand ;; Ok (pos v)
  | UnaryOp USub operand => v <- _convert_num operand ;; Ok (neg v)
  | _ => _convert_num node
  end.

(** The [BinOp] case of [_convert], once both operands are numbers. *)
Definition _convert_binop (node : expr) (op : operator) (l r : value) : result value :=
  match real_as_float l, r with
  | Some cl, VComplex re im =>
      match op with
      | Add => x <- cl ;; Ok (complex_add x re im)
      | _ => x <- cl ;; Ok (complex_sub x re im)
      end
  | _, _ => _convert_signed_num node
  end.

(** [isinstance(node.func, Name) and node.func.id == 'set' and
    node.args == node.keywords == []] *)
Definition is_empty_set_call (func : expr) (args : list expr)
  (keywords : list (option string * expr)) : bool :=
  match func, args, keywords with
  | Name id, [], [] => String.eqb id "set"
  | _, _, _ => false
  end.

Fixpoint _convert (node : expr) : result value :=
  match node with
  | Constant v => Ok v
  | Tuple elts => vs <- collect (map _convert elts) ;; Ok (VTuple vs)
  | List elts => vs <- collect (map _convert elts) ;; Ok (VList vs)
  | Set_ elts => vs <- set_of (map _convert elts) [] ;; Ok (VSet vs)
  | Call func args keywords =>
      if is_empty_set_call func args keywords
      then Ok (VSet [])
      else _convert_signed_num node
  | Dict keys values =>
      if negb (Nat.eqb (List.length keys) (List.length values))
      then Raise (ValueError (Some node))
      else
        items <- dict_of_zip
                   (map (fun k => match k with
                                  | Some e => _convert e
                                  | None => Raise (ValueError None)
                                  end) keys)
                   (map _convert values) [] ;;
        Ok (VDict items)
  | BinOp lhs op rhs =>
      match op with
      | Add | Sub =>
          l <- _convert_signed_num lhs ;;
          r <- _convert_num rhs ;;
          _convert_binop node op l r
      | _ => _convert_signed_num node
      end
  | _ => _convert_signed_num node
  end.

Definition literal_eval (node : expr) : result value := _convert node.

(** ** The dictionary [vars_out] *)

(** A Python [dict] with [str] keys: the items in insertion order, every key
    once. *)
Definition assignments : Type := list (string * value).

(** [d.get(k)] *)
Fixpoint dict_get (k : string) (d : assignments) : option value :=
  match d with
  | [] => None
  | (k', v) :: rest => if String.eqb k k' then Some v else dict_get k rest
  end.

(** [k in d] *)
Definition dict_in (k : string) (d : assignments) : bool :=
  match dict_get k d with
  | Some _ => true
  | None => false
  end.

(** [d[k]] *)
Definition getitem (d : assignments) (k : string) : result value :=
  match dict_get k d with
  | Some v => Ok v
  | None => Raise (KeyError k)
  end.

(** [d[k] = v]: an existing key keeps its place, a new one goes last. *)
Fixpoint dict_set (k : string) (v : value) (d : assignments) : assignments :=
  match d with
  | [] => [(k, v)]
  | (k', v') :: rest =>
      if String.eqb k k' then (k', v) :: rest else (k', v') :: dict_set k v rest
  end.

(** [list(d)]: the keys in order. *)
Definition keys (d : assignments) : list string := map fst d.

(** ** Files *)

(** What [open(path).read()] followed by [ast.parse] comes to: the file is
    missing, cannot be opened or decoded ([e] is the exception's text), does
    not parse ([e] likewise), or parses to the statements [body]. *)
Inductive source : Type :=
| FileNotFound
| OpenError (e : string)
| SyntaxError (e : string)
| Parsed (body : list stmt).

(** Truth value of an [Optional[str]] and of a list. *)
Definition truthy_str (err : option string) : bool :=
  match err with
  | None | Some "" => false
  | Some _ => true
  end.

Definition truthy_list {A : Type} (l : list A) : bool :=
  match l with
  | [] => false
  | _ :: _ => true
  end.

(** [l.append(x)] *)
Definition append {A : Type} (l : list A) (x : A) : list A := (l ++ [x])%list.

(** [for x in xs: s = body(s, x)], where the body may raise. *)
Fixpoint for_each {A S : Type} (xs : list A) (body : S -> A -> result S) (s : S) : result S :=
  match xs with
  | [] => Ok s
  | x :: xs' => s' <- body s x ;; for_each xs' body s'
  end.

Section Checker.

(** The text of [repr(v)], for a value that can be printed, and [str(e)], as
    the interpreter that runs the checker gives them. *)
Variable repr : value -> string.
Variable str_exn : exn -> string.

(** [repr(v)] *)
Definition repr_of (v : value) : result string :=
  if holds_long_int v then Raise ValueError_digits else Ok (repr v).

(** *** Utils *)

Definition is_numeric (x : value) : bool :=
  isinstance_int x || isinstance_float x.

(** The loop of [check_vector], from index [i] on. *)
Fixpoint check_vector_from (i : nat) (vec : list value) : result (bool * string) :=
  match vec with
  | [] => Ok (true, "")
  | el :: rest =>
      if negb (is_numeric el)
      then
        r <- repr_of el ;;
        Ok (false, "Element at position " ++ str_nat i ++ " is not numeric: " ++ r)
      else check_vector_from (S i) rest
  end.

Definition check_vector (vec : value) (length : Z) : result (bool * string) :=
  match vec with
  | VList items =>
      if negb (Z.of_nat (List.length items) =? length)
      then Ok (false, "Expected a list of length " ++ str_int length ++ ".")
      else check_vector_from 0 items
  | _ => Ok (false, "Expected a list of length " ++ str_int length ++ ".")
  end.

(** The inner loop of [check_matrix] over row [r_idx], from column [c_idx] on:
    the message of the first offence, if any. *)
Fixpoint check_row_from (r_idx c_idx : nat) (row : list value) : result (option string) :=
  match row with
  | [] => Ok None
  | el :: rest =>
      if negb (is_numeric el)
      then
        r <- repr_of el ;;
        Ok (Some ("Non-numeric at (" ++ str_nat r_idx ++ "," ++ str_nat c_idx ++ "): " ++ r))
      else check_row_from r_idx (S c_idx) rest
  end.

(** The outer loop of [check_matrix], from row [r_idx] on. *)
Fixpoint check_matrix_from (cols : Z) (r_idx : nat) (mat : list value)
  : result (bool * string) :=
  match mat with
  | [] => Ok (true, "")
  | row :: rest =>
      match row with
      | VList els =>
          if negb (Z.of_nat (List.length els) =? cols)
          then
            Ok (false,
                "Row " ++ str_nat r_idx ++ " must be a list with " ++ str_int cols
                  ++ " elements.")
          else
            found <- check_row_from r_idx 0 els ;;
            match found with
            | Some msg => Ok (false, msg)
            | None => check_matrix_from cols (S r_idx) rest
            end
      | _ =>
          Ok (false,
              "Row " ++ str_nat r_idx ++ " must be a list with " ++ str_int cols
                ++ " elements.")
      end
  end.

Definition check_matrix (mat : value) (rows cols : Z) : result (bool * string) :=
  match mat with
  | VList items =>
      if negb (Z.of_nat (List.length items) =? rows)
      then Ok (false, "Expected a list with " ++ str_int rows ++ " rows.")
      else check_matrix_from cols 0 items
  | _ => Ok (false, "Expected a list with " ++ str_int rows ++ " rows.")
  end.

(** The loop of [read_assignments_multiline] over [tree.body]. *)
Fixpoint read_body (body : list stmt) (out : assignments) : assignments * option string :=
  match body with
  | [] => (out, None)
  | node :: rest =>
      match node with
      | Assign [Name name] value =>
          match literal_eval value with
          | Ok val => read_body rest (dict_set name val out)
          | Raise e => ([], Some ("Could not parse value for " ++ name ++ ": " ++ str_exn e))
          end
      | _ => read_body rest out
      end
  end.

Definition read_assignments_multiline (path : string) (src : source)
  : assignments * option string :=
  match src with
  | FileNotFound => ([], Some ("File not found: " ++ path))
  | OpenError e => ([], Some ("Error opening " ++ path ++ ": " ++ e))
  | SyntaxError e => ([], Some ("Could not parse file as Python: " ++ e))
  | Parsed body => read_body body []
  end.

(** *** File checks *)

(** [for k in required: if k not in vars_out: errors.append(...)] *)
Definition missing (required : list string) (vars_out : assignments) (errors : list string)
  : list string :=
  fold_left
    (fun errors k =>
       if negb (dict_in k vars_out)
       then append errors ("Missing variable: " ++ k)
       else errors)
    required errors.

Definition required_config : list string :=
  ["r"; "num_trainable_lora"; "P"; "num_trainable_soft"; "d_a";
   "num_trainable_adapters"; "num_trainable_ia3"].

(** The closure [_assert_int_nonneg] of [check_peft_config]; [errors] is the
    list it appends to. *)
Definition _assert_int_nonneg (vars_out : assignments) (errors : list string) (name : string)
  : result (list string) :=
  v <- getitem vars_out name ;;
  match int_value v with
  | None =>
      Ok (append errors (name ++ " must be an integer (got " ++ type_name v ++ ")."))
  | Some n =>
      if n <? 0
      then
        shown <- format_int v ;;
        Ok (append errors (name ++ " must be >= 0 (got " ++ shown ++ ")."))
      else Ok errors
  end.

(** The body of the evenness loop of [check_peft_config]. *)
Definition _check_even (vars_out : assignments) (errors : list string) (name : string)
  : result (list string) :=
  match dict_get name vars_out with
  | None => Ok errors
  | Some v =>
      match int_value v with
      | None => Ok errors
      | Some n =>
          if negb (n mod 2 =? 0)
          then
            shown <- format_int v ;;
            Ok (append errors (name ++ " must be even (got " ++ shown ++ ")."))
          else Ok errors
      end
  end.

(** [check_peft_config] once the file is read: from [required = ...] on. *)
Definition check_peft_config_vars (vars_out : assignments) : result (list string) :=
  let errors := missing required_config vars_out [] in
  if truthy_list errors then Ok errors
  else
    errors <- for_each
                ["r"; "P"; "d_a"; "num_trainable_lora"; "num_trainable_soft";
                 "num_trainable_adapters"; "num_trainable_ia3"]
                (_assert_int_nonneg vars_out) errors ;;
    for_each ["r"; "P"; "d_a"] (_check_even vars_out) errors.

Definition check_peft_config (path : string) (src : source) : result (list string) :=
  match read_assignments_multiline path src with
  | (vars_out, err) =>
      if truthy_str err
      then Ok (match err with Some e => [e] | None => [] end)
      else check_peft_config_vars vars_out
  end.

Definition required_peft : list string := ["b"; "A"; "B"; "Wprime"].

(** [ok, msg = check; if not ok: errors.append(prefix + msg)] *)
Definition report (prefix : string) (check : bool * string) (errors : list string)
  : list string :=
  let (ok, msg) := check in
  if negb ok then append errors (prefix ++ msg) else errors.

(** [check_peft] once the file is read: from [required = ...] on. *)
Definition check_peft_vars (vars_out : assignments) : result (list string) :=
  let errors := missing required_peft vars_out [] in
  if truthy_list errors then Ok errors
  else
    b <- getitem vars_out "b" ;;
    cb <- check_vector b 4 ;;
    let errors := report "b must be a numeric list of length 4: " cb errors in
    A <- getitem vars_out "A" ;;
    cA <- check_matrix A 2 1 ;;
    let errors := report "A must be a 2x1 numeric matrix: " cA errors in
    B <- getitem vars_out "B" ;;
    cB <- check_matrix B 1 4 ;;
    let errors := report "B must be a 1x4 numeric matrix: " cB errors in
    W <- getitem vars_out "Wprime" ;;
    cW <- check_matrix W 2 4 ;;
    let errors := report "Wprime must be a 2x4 numeric matrix: " cW errors in
    Ok errors.

Definition check_peft (path : string) (src : source) : result (list string) :=
  match read_assignments_multiline path src with
  | (vars_out, err) =>
      if truthy_str err
      then Ok (match err with Some e => [e] | None => [] end)
      else check_peft_vars vars_out
  end.

End Checker.

(** ** A sample interpreter

    An instance of the two parameters, to run the checker on examples.
    [Sample.repr] prints integers, booleans, [None], [Ellipsis], strings of
    printable ASCII characters other than quotes and backslashes, and lists
    and tuples of those, as CPython does; any other value is shown by the name
    of its type.  [Sample.str_exn] names the exception. *)
Module Sample.

Definition join (sep : string) (l : list string) : string := String.concat sep l.

Fixpoint repr (v : value) : string :=
  match v with
  | VInt n => str_int n
  | VBool true => "True"
  | VBool false => "False"
  | VNone => "None"
  | VEllipsis => "Ellipsis"
  | VStr s => "'" ++ s ++ "'"
  | VList items => "[" ++ join ", " (map repr items) ++ "]"
  | VTuple [x] => "(" ++ repr x ++ ",)"
  | VTuple items => "(" ++ join ", " (map repr items) ++ ")"
  | _ => "<" ++ type_name v ++ ">"
  end.

Definition str_exn (e : exn) : string :=
  match e with
  | ValueError _ => "malformed node or string"
  | ValueError_digits => "Exceeds the limit (4300 digits) for integer string conversion"
  | TypeError v => "unhashable type: '" ++ type_name v ++ "'"
  | OverflowError => "int too large to convert to float"
  | KeyError k => "'" ++ k ++ "'"
  end.

(** The example files of the exercise sheet, as [ast.parse] returns them. *)
Definition num (n : Z) : expr := Constant (VInt n).

Definition config_example : list stmt :=
  [Assign [Name "r"] (num 4);
   Assign [Name "num_trainable_lora"] (num 8);
   Assign [Name "P"] (num 2);
   Assign [Name "num_trainable_soft"] (num 16);
   Assign [Name "d_a"] (num 6);
   Assign [Name "num_trainable_adapters"] (num 12);
   Assign [Name "num_trainable_ia3"] (num 0)].

Definition peft_example : list stmt :=
  [Assign [Name "b"]
     (List [Constant (VFloat 1.0); num 2; Constant (VFloat 3.5); UnaryOp USub (num 4)]);
   Assign [Name "A"] (List [List [Constant (VFloat 0.1)]; List [Constant (VFloat 0.2)]]);
   Assign [Name "B"] (List [List [num 1; num 2; num 3; num 4]]);
   Assign [Name "Wprime"]
     (List [List [num 1; num 2; num 3; num 4]; List [num 5; num 6; num 7; num 8]])].

End Sample.

(** ** Vocabulary of the statements *)

(** A top-level statement [name = value] with a single [Name] target. *)
Definition name_assignment (node : stmt) : option (string * expr) :=
  match node with
  | Assign [Name name] value => Some (name, value)
  | _ => None
  end.

(** The [name = value] statements of a module body, in order. *)
Fixpoint bindings (body : list stmt) : list (string * expr) :=
  match body with
  | [] => []
  | node :: rest =>
      match name_assignment node with
      | Some b => b :: bindings rest
      | None => bindings rest
      end
  end.

(** The names of [l], each at its first occurrence. *)
Fixpoint dedup (l : list string) : list string :=
  match l with
  | [] => []
  | x :: l' => x :: filter (fun y => negb (String.eqb y x)) (dedup l')
  end.

(** The value last bound to [n] in a sequence of bindings. *)
Fixpoint last_assigned (n : string) (bs : list (string * value)) : option value :=
  match bs with
  | [] => None
  | (k, v) :: bs' =>
      match last_assigned n bs' with
      | Some w => Some w
      | None => if String.eqb n k then Some v else None
      end
  end.

(** [name = value] evaluates to [binding]. *)
Definition evaluates_to (b : string * expr) (binding : string * value) : Prop :=
  fst b = fst binding /\ literal_eval (snd b) = Ok (snd binding).

(** The diagnostic of [read_assignments_multiline] for a value that is not a
    literal. *)
Definition literal_error (str_exn : exn -> string) (name : string) (e : exn) : string :=
  "Could not parse value for " ++ name ++ ": " ++ str_exn e.

(** The required names that [vars_out] lacks, and their messages. *)
Definition absent (required : list string) (vars_out : assignments) : list string :=
  filter (fun k => negb (dict_in k vars_out)) required.

Definition missing_message (k : string) : string := "Missing variable: " ++ k.

(** The three errors of the config schema; [shown] is the value as the
    f-string prints it. *)
Definition type_error (name : string) (v : value) : string :=
  name ++ " must be an integer (got " ++ type_name v ++ ").".

Definition sign_error (name shown : string) : string :=
  name ++ " must be >= 0 (got " ++ shown ++ ").".

Definition parity_error (name shown : string) : string :=
  name ++ " must be even (got " ++ shown ++ ").".

(** What [_assert_int_nonneg] and the evenness loop append for a variable bound
    to [v], when printing [v] does not raise. *)
Definition int_errors (name : string) (v : value) : result (list string) :=
  match int_value v with
  | None => Ok [type_error name v]
  | Some n => if n <? 0 then shown <- format_int v ;; Ok [sign_error name shown] else Ok []
  end.

Definition even_errors (name : string) (v : value) : result (list string) :=
  match int_value v with
  | None => Ok []
  | Some n => if Z.even n then Ok [] else shown <- format_int v ;; Ok [parity_error name shown]
  end.

(** The errors of several steps run one after the other; the first step that
    raises ends the run. *)
Fixpoint gather (steps : list (result (list string))) : result (list string) :=
  match steps with
  | [] => Ok []
  | step :: rest => e <- step ;; es <- gather rest ;; Ok (e ++ es)%list
  end.

(** A config variable bound to a non-negative integer. *)
Definition nonneg_int (vars_out : assignments) (name : string) : Prop :=
  exists n, dict_get name vars_out = Some (VInt n) /\ 0 <= n.

(** A config variable bound to an even non-negative integer. *)
Definition even_nonneg_int (vars_out : assignments) (name : string) : Prop :=
  exists n, dict_get name vars_out = Some (VInt n) /\ 0 <= n /\ Z.even n = true.

(** A list of numbers of the given length, and a matrix of the given shape. *)
Definition numeric_list (v : value) (length : Z) : Prop :=
  exists items,
    v = VList items /\ Z.of_nat (List.length items) = length /\
    Forall (fun el => is_numeric el = true) items.

Definition numeric_matrix (v : value) (rows cols : Z) : Prop :=
  exists items,
    v = VList items /\ Z.of_nat (List.length items) = rows /\
    Forall (fun row => numeric_list row cols) items.

(** What a failed check adds to the errors of [check_peft]. *)
Definition reported (prefix : string) (check : bool * string) : list string :=
  if fst check then [] else [prefix ++ snd check].

(** [out[name] = val] for each binding in turn. *)
Definition store_all (vs : list (string * value)) (out : assignments) : assignments :=
  fold_left (fun d b => dict_set (fst b) (snd b) d) vs out.

(** Every [name = value] statement of [body] evaluates. *)
Definition all_evaluate (body : list stmt) : Prop :=
  forall n e, In (Assign [Name n] e) body -> exists v, literal_eval e = Ok v.

(** Constants, and the lists and tuples built from them. *)
Fixpoint plain_literal (e : expr) : bool :=
  match e with
  | Constant _ => true
  | Tuple elts | List elts => forallb plain_literal elts
  | _ => false
  end.

(** ** [main]: finding the two files and printing the report *)

(** The functions of [os.path] that [main] calls. *)
Module path.

(** [posixpath.join(a, b)] *)
Definition startswith_sep (b : string) : bool :=
  match b with
  | String c _ => Ascii.eqb c "/"
  | EmptyString => false
  end.

Fixpoint endswith_sep (p : string) : bool :=
  match p with
  | EmptyString => false
  | String c EmptyString => Ascii.eqb c "/"
  | String _ rest => endswith_sep rest
  end.

Definition join (a b : string) : string :=
  if startswith_sep b || String.eqb a "" then b
  else if endswith_sep a then a ++ b
  else a ++ "/" ++ b.

(** [p.rfind("/")]: the index of the last separator, or -1. *)
Fixpoint rfind_sep (p : string) : Z :=
  match p with
  | EmptyString => -1
  | String c rest =>
      let i := rfind_sep rest in
      if i =? -1 then (if Ascii.eqb c "/" then 0 else -1) else i + 1
  end.

(** [p[i:]] for an index [i >= 0]. *)
Fixpoint slice_from (i : nat) (p : string) : string :=
  match i, p with
  | O, _ => p
  | S i', String _ rest => slice_from i' rest
  | S _, EmptyString => EmptyString
  end.

(** [posixpath.basename(p)] *)
Definition basename (p : string) : string :=
  slice_from (Z.to_nat (rfind_sep p + 1)) p.

End path.

(** The files of the machine: what is at a path, if anything, as [open] and
    [ast.parse] find it. *)
Definition files : Type := string -> option source.

(** [os.path.exists(p)] *)
Definition exists_ (fs : files) (p : string) : bool :=
  match fs p with
  | Some _ => true
  | None => false
  end.

(** What reading [p] comes to; a path with nothing at it is not found. *)
Definition open_ (fs : files) (p : string) : source :=
  match fs p with
  | Some src => src
  | None => FileNotFound
  end.

(** [print(line)]: the lines printed so far, and one more. *)
Definition print (out : list string) (line : string) : list string := append out line.

(** [for e in errs: print(f"   - {e}")] *)
Definition print_errors (out : list string) (errs : list string) : list string :=
  fold_left (fun out e => print out ("   - " ++ e)) errs out.

(** The loop of [main] over [candidates_cfg], with its [break]. *)
Fixpoint find_config (fs : files) (folder : string) (candidates : list string)
  : option string :=
  match candidates with
  | [] => None
  | cand :: rest =>
      let p := path.join folder cand in
      if exists_ fs p then Some p else find_config fs folder rest
  end.

Definition candidates_cfg : list string := ["peft config.txt"; "peft_config.txt"].

(** The line feed that opens the last line. *)
Definition nl : string := String "010" EmptyString.

Section Main.

Variable repr : value -> string.
Variable str_exn : exn -> string.

(** [main(folder)]: the lines printed and the status returned. *)
Definition main (fs : files) (folder : string) : result (list string * Z) :=
  let path_cfg := find_config fs folder candidates_cfg in
  let out := [] in
  let any_errors := false in
  cfg <- match path_cfg with
         | None =>
             Ok (print out "❌ peft config.txt / peft_config.txt: File not found", true)
         | Some p =>
             errs <- check_peft_config str_exn p (open_ fs p) ;;
             if negb (truthy_list errs)
             then Ok (print out ("✅ " ++ path.basename p ++ ": OK"), any_errors)
             else
               Ok (print_errors (print out ("❌ " ++ path.basename p ++ ":")) errs, true)
         end ;;
  let (out, any_errors) := cfg in
  let path_peft := path.join folder "peft.txt" in
  peft <- (if negb (exists_ fs path_peft)
           then Ok (print out "❌ peft.txt: File not found", true)
           else
             errs <- check_peft repr str_exn path_peft (open_ fs path_peft) ;;
             if negb (truthy_list errs)
             then Ok (print out "✅ peft.txt: OK", any_errors)
             else Ok (print_errors (print out "❌ peft.txt:") errs, true)) ;;
  let (out, any_errors) := peft in
  if negb any_errors
  then Ok (print out (nl ++ "All files are correctly formatted ✅"), 0)
  else Ok (print out (nl ++ "Formatting issues detected ❗"), 1).

End Main.

(** ** Vocabulary of the further statements *)

(** A value the config schema lets through: an instance of [int] that is not
    negative. *)
Definition passes_int (vars_out : assignments) (name : string) : Prop :=
  exists v n, dict_get name vars_out = Some v /\ int_value v = Some n /\ 0 <= n.

Definition passes_even_int (vars_out : assignments) (name : string) : Prop :=
  exists v n,
    dict_get name vars_out = Some v /\ int_value v = Some n /\ 0 <= n /\ Z.even n = true.

(** Two dictionaries that bind the names of [required] alike. *)
Definition agree_on (required : list string) (d1 d2 : assignments) : Prop :=
  forall k, In k required -> dict_get k d1 = dict_get k d2.

(** A number as a data file writes it: an [int] or [float] constant, with or
    without a sign. *)
Definition number_literal (e : expr) : bool :=
  match e with
  | Constant (VInt _) | Constant (VFloat _) => true
  | UnaryOp UAdd (Constant (VInt _)) | UnaryOp UAdd (Constant (VFloat _)) => true
  | UnaryOp USub (Constant (VInt _)) | UnaryOp USub (Constant (VFloat _)) => true
  | _ => false
  end.

(** A list display of [n] numbers, and one of [rows] such lists. *)
Definition vector_literal (e : expr) (n : nat) : Prop :=
  exists elts, e = List elts /\ List.length elts = n /\ forallb number_literal elts = true.

Definition matrix_literal (e : expr) (rows cols : nat) : Prop :=
  exists elts,
    e = List elts /\ List.length elts = rows /\
    Forall (fun row => vector_literal row cols) elts.

(** The lines [main] prints for one file, and whether they report errors. *)
Definition ok_line (label : string) : string := "✅ " ++ label ++ ": OK".

Definition error_lines (label : string) (errs : list string) : list string :=
  ("❌ " ++ label ++ ":") :: map (fun e => "   - " ++ e) errs.

Definition file_report (label : string) (errs : list string) : list string :=
  match errs with
  | [] => [ok_line label]
  | _ :: _ => error_lines label errs
  end.

(** The report of one file: its lines, and whether it counts as an error. *)
Definition config_report (str_exn : exn -> string) (fs : files) (folder : string)
  : result (list string * bool) :=
  match find_config fs folder candidates_cfg with
  | None => Ok (["❌ peft config.txt / peft_config.txt: File not found"], true)
  | Some p =>
      errs <- check_peft_config str_exn p (open_ fs p) ;;
      Ok (file_report (path.basename p) errs, truthy_list errs)
  end.

Definition peft_report (repr : value -> string) (str_exn : exn -> string) (fs : files)
  (folder : string) : result (list string * bool) :=
  if exists_ fs (path.join folder "peft.txt")
  then
    errs <- check_peft repr str_exn (path.join folder "peft.txt")
              (open_ fs (path.join folder "peft.txt")) ;;
    Ok (file_report "peft.txt" errs, truthy_list errs)
  else Ok (["❌ peft.txt: File not found"], true).

Definition summary (bad : bool) : string * Z :=
  if bad then (nl ++ "Formatting issues detected ❗", 1)
  else (nl ++ "All files are correctly formatted ✅", 0).

(** Literals other than constants: the value of a list, tuple, set or dict
    display whose members have the values [vs]. *)
Definition set_members (vs : list value) : list value :=
  fold_left (fun members v => if existsb (key_eq v) members then members
                              else (members ++ [v])%list) vs [].

Definition dict_items (kvs : list (value * value)) : list (value * value) :=
  fold_left (fun items kv => dict_store (fst kv) (snd kv) items) kvs [].

(** The value of a constant and of the lists and tuples built from constants. *)
Fixpoint plain_value (e : expr) : value :=
  match e with
  | Constant c => c
  | Tuple elts => VTuple (map plain_value elts)
  | List elts => VList (map plain_value elts)
  | _ => VNone
  end.

(** The numbers [_convert_num] lets through. *)
Definition is_number_constant (e : expr) : bool :=
  match e with
  | Constant (VInt _) | Constant (VFloat _) | Constant (VComplex _ _) => true
  | _ => false
  end.

(** A disk with the given files on it, for examples. *)
Fixpoint disk (entries : list (string * source)) (p : string) : option source :=
  match entries with
  | [] => None
  | (k, src) :: rest => if String.eqb p k then Some src else disk rest p
  end.

(** A dictionary none of whose values holds an integer of more than 4300
    digits. *)
Definition printable (vars_out : assignments) : Prop :=
  forall k v, dict_get k vars_out = Some v -> holds_long_int v = false.

(** ** Facts about the dictionary *)

Lemma dict_in_get (k : string) (d : assignments) (v : value) :
  dict_get k d = Some v -> dict_in k d = true.
Proof. unfold dict_in. now intros ->. Qed.

Lemma dict_in_false (k : string) (d : assignments) :
  dict_in k d = false <-> dict_get k d = None.
Proof. unfold dict_in. destruct (dict_get k d); split; congruence. Qed.

Lemma dict_get_set (n k : string) (v : value) (d : assignments) :
  dict_get n (dict_set k v d) = if String.eqb n k then Some v else dict_get n d.
Proof.
  induction d as [|[k' v'] d IH]; simpl.
  - reflexivity.
  - destruct (String.eqb k k') eqn:Ek; simpl.
    + apply String.eqb_eq in Ek. subst k'. now destruct (String.eqb n k).
    + rewrite IH. destruct (String.eqb n k') eqn:En; [|reflexivity].
      apply String.eqb_eq in En. subst k'.
      destruct (String.eqb n k) eqn:E; [|reflexivity].
      apply String.eqb_eq in E. subst k. rewrite String.eqb_refl in Ek. discriminate.
Qed.

Lemma getitem_get (d : assignments) (k : string) (v : value) :
  dict_get k d = Some v -> getitem d k = Ok v.
Proof. unfold getitem. now intros ->. Qed.

(** ** Missing variables *)

Lemma missing_app (required : list string) (vars_out : assignments) (errors : list string) :
  missing required vars_out errors
  = (errors ++ map missing_message (absent required vars_out))%list.
Proof.
  unfold missing, absent. revert errors.
  induction required as [|k required IH]; intros errors; simpl.
  - now rewrite app_nil_r.
  - rewrite IH. destruct (dict_in k vars_out); simpl.
    + reflexivity.
    + unfold append. now rewrite <- app_assoc.
Qed.

Lemma absent_nil (required : list string) (vars_out : assignments) :
  absent required vars_out = [] <-> forall k, In k required -> dict_in k vars_out = true.
Proof.
  unfold absent. induction required as [|k required IH]; simpl.
  - split; [intros _ k []|reflexivity].
  - destruct (dict_in k vars_out) eqn:E; simpl.
    + rewrite IH. split.
      * intros H k' [<-|Hk]; auto.
      * intros H k' Hk. apply H. now right.
    + split; [discriminate|]. intros H. specialize (H k (or_introl eq_refl)). congruence.
Qed.

Lemma truthy_list_map {A B : Type} (f : A -> B) (l : list A) :
  truthy_list (map f l) = truthy_list l.
Proof. now destruct l. Qed.

Lemma truthy_list_false {A : Type} (l : list A) : truthy_list l = false <-> l = [].
Proof. destruct l; simpl; split; congruence. Qed.

(** ** The limit on digits *)

Lemma digit_bound_eq : digit_bound = 10 ^ int_max_str_digits.
Proof. vm_compute. reflexivity. Qed.

Lemma exceeds_digits_iff (n : Z) :
  exceeds_digits n = true <-> 10 ^ int_max_str_digits <= Z.abs n.
Proof. unfold exceeds_digits. rewrite digit_bound_eq. apply Z.leb_le. Qed.

Lemma str_shown (n : Z) : exceeds_digits n = false -> str n = Ok (str_int n).
Proof. unfold str. now intros ->. Qed.

Lemma str_raises (n : Z) : exceeds_digits n = true -> str n = Raise ValueError_digits.
Proof. unfold str. now intros ->. Qed.

Lemma format_int_cases (v : value) :
  (exists shown, format_int v = Ok shown)
  \/ (format_int v = Raise ValueError_digits /\
      exists n, v = VInt n /\ exceeds_digits n = true).
Proof.
  destruct v as [n|[]| | | | | | | | | |]; simpl; eauto.
  unfold str. destruct (exceeds_digits n) eqn:E; eauto.
Qed.

(** ** The config schema *)

Lemma assert_int_nonneg_app (vars_out : assignments) (errors : list string) (name : string)
  (v : value) :
  dict_get name vars_out = Some v ->
  _assert_int_nonneg vars_out errors name
  = (e <- int_errors name v ;; Ok (errors ++ e)%list).
Proof.
  intros H. unfold _assert_int_nonneg, int_errors. rewrite (getitem_get _ _ _ H). simpl.
  destruct (int_value v) as [n|]; [destruct (n <? 0)|]; unfold append; simpl.
  - now destruct (format_int v).
  - now rewrite app_nil_r.
  - reflexivity.
Qed.

Lemma odd_mod_even (n : Z) : negb (n mod 2 =? 0) = negb (Z.even n).
Proof.
  f_equal. rewrite Zeven_mod. reflexivity.
Qed.

Lemma check_even_app (vars_out : assignments) (errors : list string) (name : string)
  (v : value) :
  dict_get name vars_out = Some v ->
  _check_even vars_out errors name
  = (e <- even_errors name v ;; Ok (errors ++ e)%list).
Proof.
  intros H. unfold _check_even, even_errors. rewrite H.
  destruct (int_value v) as [n|]; [|simpl; now rewrite app_nil_r].
  rewrite odd_mod_even. destruct (Z.even n); simpl; [now rewrite app_nil_r|].
  unfold append. now destruct (format_int v).
Qed.

(** With the seven variables present, the run is the type and sign pass
    followed by the evenness pass. *)
Lemma check_peft_config_vars_present (vars_out : assignments)
  (r P d_a lora soft adapters ia3 : value) :
  dict_get "r" vars_out = Some r ->
  dict_get "P" vars_out = Some P ->
  dict_get "d_a" vars_out = Some d_a ->
  dict_get "num_trainable_lora" vars_out = Some lora ->
  dict_get "num_trainable_soft" vars_out = Some soft ->
  dict_get "num_trainable_adapters" vars_out = Some adapters ->
  dict_get "num_trainable_ia3" vars_out = Some ia3 ->
  check_peft_config_vars vars_out
  = gather [int_errors "r" r; int_errors "P" P; int_errors "d_a" d_a;
            int_errors "num_trainable_lora" lora; int_errors "num_trainable_soft" soft;
            int_errors "num_trainable_adapters" adapters;
            int_errors "num_trainable_ia3" ia3;
            even_errors "r" r; even_errors "P" P; even_errors "d_a" d_a].
Proof.
  intros Hr HP Hd Hl Hs Ha Hi. unfold check_peft_config_vars.
  rewrite missing_app.
  assert (Habs : absent required_config vars_out = []).
  { apply absent_nil. unfold required_config.
    intros k Hk. simpl in Hk.
    repeat (destruct Hk as [<-|Hk]; [eapply dict_in_get; eassumption|]).
    destruct Hk. }
  rewrite Habs. simpl.
  rewrite (assert_int_nonneg_app _ _ _ _ Hr).
  destruct (int_errors "r" r) as [e1|]; [simpl|reflexivity].
  rewrite (assert_int_nonneg_app _ _ _ _ HP).
  destruct (int_errors "P" P) as [e2|]; [simpl|reflexivity].
  rewrite (assert_int_nonneg_app _ _ _ _ Hd).
  destruct (int_errors "d_a" d_a) as [e3|]; [simpl|reflexivity].
  rewrite (assert_int_nonneg_app _ _ _ _ Hl).
  destruct (int_errors "num_trainable_lora" lora) as [e4|]; [simpl|reflexivity].
  rewrite (assert_int_nonneg_app _ _ _ _ Hs).
  destruct (int_errors "num_trainable_soft" soft) as [e5|]; [simpl|reflexivity].
  rewrite (assert_int_nonneg_app _ _ _ _ Ha).
  destruct (int_errors "num_trainable_adapters" adapters) as [e6|]; [simpl|reflexivity].
  rewrite (assert_int_nonneg_app _ _ _ _ Hi).
  destruct (int_errors "num_trainable_ia3" ia3) as [e7|]; [simpl|reflexivity].
  rewrite (check_even_app _ _ _ _ Hr).
  destruct (even_errors "r" r) as [e8|]; [simpl|reflexivity].
  rewrite (check_even_app _ _ _ _ HP).
  destruct (even_errors "P" P) as [e9|]; [simpl|reflexivity].
  rewrite (check_even_app _ _ _ _ Hd).
  destruct (even_errors "d_a" d_a) as [e10|]; [simpl|reflexivity].
  f_equal. now rewrite app_nil_r, <- !app_assoc.
Qed.

Lemma int_errors_nonneg (name : string) (n : Z) :
  0 <= n -> int_errors name (VInt n) = Ok [].
Proof.
  intros H. unfold int_errors. simpl. destruct (Z.ltb_spec n 0); [lia|reflexivity].
Qed.

Lemma even_errors_even (name : string) (n : Z) :
  Z.even n = true -> even_errors name (VInt n) = Ok [].
Proof. intros H. unfold even_errors. simpl. now rewrite H. Qed.

Lemma int_value_isinstance (v : value) :
  isinstance_int v = false <-> int_value v = None.
Proof. destruct v; simpl; split; congruence. Qed.

Lemma nonneg_int_errors (vars_out : assignments) (name : string) :
  nonneg_int vars_out name ->
  exists v, dict_get name vars_out = Some v /\ int_errors name v = Ok [].
Proof.
  intros (n & Hn & H0). exists (VInt n). split; [assumption|].
  now apply int_errors_nonneg.
Qed.

Lemma even_nonneg_int_errors (vars_out : assignments) (name : string) :
  even_nonneg_int vars_out name ->
  exists v, dict_get name vars_out = Some v /\ int_errors name v = Ok []
            /\ even_errors name v = Ok [].
Proof.
  intros (n & Hn & H0 & He). exists (VInt n). repeat split; [assumption| |].
  - now apply int_errors_nonneg.
  - now apply even_errors_even.
Qed.

(** With the six other variables valid, the run is that of [r]. *)
Lemma check_peft_config_vars_r (vars_out : assignments) (r : value) :
  dict_get "r" vars_out = Some r ->
  even_nonneg_int vars_out "P" ->
  even_nonneg_int vars_out "d_a" ->
  nonneg_int vars_out "num_trainable_lora" ->
  nonneg_int vars_out "num_trainable_soft" ->
  nonneg_int vars_out "num_trainable_adapters" ->
  nonneg_int vars_out "num_trainable_ia3" ->
  check_peft_config_vars vars_out
  = (a <- int_errors "r" r ;; b <- even_errors "r" r ;; Ok (a ++ b)%list).
Proof.
  intros Hr HP Hd Hl Hs Ha Hi.
  apply even_nonneg_int_errors in HP as (vP & HP & HP1 & HP2).
  apply even_nonneg_int_errors in Hd as (vd & Hd & Hd1 & Hd2).
  apply nonneg_int_errors in Hl as (vl & Hl & Hl1).
  apply nonneg_int_errors in Hs as (vs & Hs & Hs1).
  apply nonneg_int_errors in Ha as (va & Ha & Ha1).
  apply nonneg_int_errors in Hi as (vi & Hi & Hi1).
  rewrite (check_peft_config_vars_present _ _ _ _ _ _ _ _ Hr HP Hd Hl Hs Ha Hi).
  simpl. rewrite HP1, HP2, Hd1, Hd2, Hl1, Hs1, Ha1, Hi1. simpl.
  destruct (int_errors "r" r) as [a|]; [simpl|reflexivity].
  destruct (even_errors "r" r) as [b|]; [simpl|reflexivity].
  now rewrite app_nil_r.
Qed.

(** C4.  An Assignment Map that lacks a required variable gets exactly one
    "Missing variable: <name>" error per absent required name, in the order
    of the schema, and no other error; this holds for the config schema and
    for the data schema. *)
Theorem C4_missing_variables_short_circuit (repr : value -> string) (vars_out : assignments) :
  ((exists k, In k required_config /\ dict_in k vars_out = false) ->
   check_peft_config_vars vars_out
   = Ok (map missing_message (absent required_config vars_out)))
  /\
  ((exists k, In k required_peft /\ dict_in k vars_out = false) ->
   check_peft_vars repr vars_out
   = Ok (map missing_message (absent required_peft vars_out))).
Proof.
  split; intros (k & Hk & Hin).
  - unfold check_peft_config_vars. rewrite missing_app, app_nil_l.
    rewrite truthy_list_map.
    destruct (truthy_list (absent required_config vars_out)) eqn:E; [reflexivity|].
    apply truthy_list_false in E. rewrite absent_nil in E.
    rewrite (E k Hk) in Hin. discriminate.
  - unfold check_peft_vars. rewrite missing_app, app_nil_l.
    rewrite truthy_list_map.
    destruct (truthy_list (absent required_peft vars_out)) eqn:E; [reflexivity|].
    apply truthy_list_false in E. rewrite absent_nil in E.
    rewrite (E k Hk) in Hin. discriminate.
Qed.

(** C5.  An Assignment Map that binds the seven required config variables to
    non-negative integers, with [r], [P] and [d_a] even, passes
    [check_peft_config]: the list of errors is empty. *)
Theorem C5_valid_config_passes (vars_out : assignments) :
  even_nonneg_int vars_out "r" ->
  nonneg_int vars_out "num_trainable_lora" ->
  even_nonneg_int vars_out "P" ->
  nonneg_int vars_out "num_trainable_soft" ->
  even_nonneg_int vars_out "d_a" ->
  nonneg_int vars_out "num_trainable_adapters" ->
  nonneg_int vars_out "num_trainable_ia3" ->
  check_peft_config_vars vars_out = Ok [].
Proof.
  intros Hr Hl HP Hs Hd Ha Hi.
  apply even_nonneg_int_errors in Hr as (vr & Hr & Hr1 & Hr2).
  rewrite (check_peft_config_vars_r _ _ Hr HP Hd Hl Hs Ha Hi).
  now rewrite Hr1, Hr2.
Qed.

(** C6.  With the six other config variables valid and [r] bound to an
    integer [n] that can be printed (at most 4300 digits), the errors are the
    sign error of [r] when [n] is negative followed by the parity error of [r]
    when [n] is odd, each decided on its own: [r = 3] gives the parity error
    alone, [r = -2] the sign error alone, and [r = -3] both.  An [n] of more
    digits gives no error when it is even and not negative, and makes the
    check raise [ValueError] instead of returning when a message has to print
    it. *)
Theorem C6_parity_and_sign_independent (vars_out : assignments) (n : Z) :
  dict_get "r" vars_out = Some (VInt n) ->
  even_nonneg_int vars_out "P" ->
  even_nonneg_int vars_out "d_a" ->
  nonneg_int vars_out "num_trainable_lora" ->
  nonneg_int vars_out "num_trainable_soft" ->
  nonneg_int vars_out "num_trainable_adapters" ->
  nonneg_int vars_out "num_trainable_ia3" ->
  (exceeds_digits n = false ->
   check_peft_config_vars vars_out
   = Ok (app (if n <? 0 then ["r must be >= 0 (got " ++ str_int n ++ ")."] else [])
             (if Z.odd n then ["r must be even (got " ++ str_int n ++ ")."] else [])))
  /\ (n = 3 -> check_peft_config_vars vars_out = Ok ["r must be even (got 3)."])
  /\ (n = -2 -> check_peft_config_vars vars_out = Ok ["r must be >= 0 (got -2)."])
  /\ (n = -3 ->
      check_peft_config_vars vars_out
      = Ok ["r must be >= 0 (got -3)."; "r must be even (got -3)."])
  /\ (0 <= n -> Z.even n = true -> check_peft_config_vars vars_out = Ok [])
  /\ (exceeds_digits n = true -> n < 0 \/ Z.odd n = true ->
      check_peft_config_vars vars_out = Raise ValueError_digits).
Proof.
  intros Hr HP Hd Hl Hs Ha Hi.
  pose proof (check_peft_config_vars_r _ _ Hr HP Hd Hl Hs Ha Hi) as H.
  assert (E : exceeds_digits n = false ->
              check_peft_config_vars vars_out
              = Ok (app (if n <? 0 then ["r must be >= 0 (got " ++ str_int n ++ ")."] else [])
                        (if Z.odd n then ["r must be even (got " ++ str_int n ++ ")."]
                         else []))).
  { intros Hn. rewrite H. unfold int_errors, even_errors. simpl int_value. cbv iota.
    simpl format_int. rewrite (str_shown n Hn), <- Z.negb_even.
    now destruct (n <? 0), (Z.even n). }
  split; [exact E|].
  split; [intros ->; now rewrite E|].
  split; [intros ->; now rewrite E|].
  split; [intros ->; now rewrite E|].
  split.
  - intros H0 He. rewrite H. now rewrite int_errors_nonneg, even_errors_even.
  - intros Hn Hcase. rewrite H. unfold int_errors, even_errors. simpl int_value. cbv iota.
    simpl format_int. rewrite (str_raises n Hn).
    destruct (Z.ltb_spec n 0); [reflexivity|].
    destruct Hcase as [Hneg|Hodd]; [lia|].
    rewrite <- Z.negb_even in Hodd. now destruct (Z.even n).
Qed.

(** C10.  For a variable bound to [v], [_assert_int_nonneg] appends at most
    one error: the type error alone when [v] is not an instance of [int], and
    otherwise nothing or the sign error alone; it returns unless the sign error
    has to print a negative integer of more than 4300 digits.  The evenness
    pass appends nothing for a value that is not an instance of [int].  So
    with the six other variables valid, a non-integer [r] (such as -3.5) gives
    exactly one error, the type error of [r]. *)
Theorem C10_type_error_excludes_sign_and_parity (vars_out : assignments) (errors : list string)
  (name : string) (v : value) :
  dict_get name vars_out = Some v ->
  (forall errors',
      _assert_int_nonneg vars_out errors name = Ok errors' ->
      exists e,
        errors' = (errors ++ e)%list /\
        ((isinstance_int v = false /\
          e = [name ++ " must be an integer (got " ++ type_name v ++ ")."]) \/
         (isinstance_int v = true /\
          (e = [] \/
           exists shown,
             format_int v = Ok shown /\
             e = [name ++ " must be >= 0 (got " ++ shown ++ ")."]))))
  /\ (isinstance_int v = false ->
      _assert_int_nonneg vars_out errors name
      = Ok (app errors [name ++ " must be an integer (got " ++ type_name v ++ ")."]))
  /\ (forall n, v = VInt n -> 0 <= n \/ exceeds_digits n = false ->
                exists errors', _assert_int_nonneg vars_out errors name = Ok errors')
  /\ (forall x,
         _assert_int_nonneg vars_out errors name = Raise x ->
         x = ValueError_digits /\ exists n, v = VInt n /\ n < 0 /\ exceeds_digits n = true)
  /\ (isinstance_int v = false -> _check_even vars_out errors name = Ok errors)
  /\ (name = "r" ->
      isinstance_int v = false ->
      even_nonneg_int vars_out "P" ->
      even_nonneg_int vars_out "d_a" ->
      nonneg_int vars_out "num_trainable_lora" ->
      nonneg_int vars_out "num_trainable_soft" ->
      nonneg_int vars_out "num_trainable_adapters" ->
      nonneg_int vars_out "num_trainable_ia3" ->
      check_peft_config_vars vars_out
      = Ok ["r must be an integer (got " ++ type_name v ++ ")."]).
Proof.
  intros Hv. rewrite (assert_int_nonneg_app _ errors _ _ Hv).
  split; [|split; [|split; [|split; [|split]]]].
  - intros errors'. unfold int_errors.
    destruct (int_value v) as [n|] eqn:Ei.
    + assert (Hi : isinstance_int v = true) by (destruct v; try discriminate; reflexivity).
      destruct (n <? 0).
      * destruct (format_int v) as [shown|] eqn:Ef; simpl; [|discriminate].
        intros [= <-]. eexists. split; [reflexivity|]. right. split; [assumption|].
        right. now exists shown.
      * simpl. intros [= <-]. exists []. split; [reflexivity|]. right. now auto.
    + simpl. intros [= <-]. eexists. split; [reflexivity|]. left.
      split; [now apply int_value_isinstance|reflexivity].
  - intros Hi. apply int_value_isinstance in Hi. unfold int_errors. now rewrite Hi.
  - intros n -> Hn. unfold int_errors. simpl.
    destruct (Z.ltb_spec n 0); [|eexists; reflexivity].
    destruct Hn as [Hn|Hn]; [lia|]. rewrite (str_shown n Hn). eexists. reflexivity.
  - intros x. unfold int_errors.
    destruct (int_value v) as [n|] eqn:Ei; [|discriminate].
    destruct (Z.ltb_spec n 0); [|discriminate].
    destruct (format_int_cases v) as [[shown Hs]|[Hs (m & -> & Hm)]].
    + rewrite Hs. discriminate.
    + rewrite Hs. simpl. intros [= <-]. split; [reflexivity|].
      simpl in Ei. injection Ei as <-. now exists m.
  - intros Hi. rewrite (check_even_app _ _ _ _ Hv). unfold even_errors.
    apply int_value_isinstance in Hi. rewrite Hi. simpl. now rewrite app_nil_r.
  - intros -> Hi HP Hd Hl Hs Ha Hia.
    rewrite (check_peft_config_vars_r _ _ Hv HP Hd Hl Hs Ha Hia).
    unfold int_errors, even_errors. apply int_value_isinstance in Hi. now rewrite Hi.
Qed.

(** ** The parser *)

Section Parser.

Variable str_exn : exn -> string.

Lemma name_assignment_Some (node : stmt) (n : string) (e : expr) :
  name_assignment node = Some (n, e) <-> node = Assign [Name n] e.
Proof.
  split; [|now intros ->].
  destruct node as [targets value| | | | | | | |]; try discriminate.
  destruct targets as [|t [|t' ts]]; try discriminate.
  - destruct t; try discriminate. simpl. now intros [= -> ->].
  - destruct t; discriminate.
Qed.

Lemma read_body_cons (node : stmt) (rest : list stmt) (out : assignments) :
  read_body str_exn (node :: rest) out
  = match name_assignment node with
    | Some (n, e) =>
        match literal_eval e with
        | Ok v => read_body str_exn rest (dict_set n v out)
        | Raise x => ([], Some (literal_error str_exn n x))
        end
    | None => read_body str_exn rest out
    end.
Proof.
  destruct node as [targets value| | | | | | | |]; try reflexivity.
  destruct targets as [|t [|t' ts]]; try reflexivity; destruct t; reflexivity.
Qed.

Lemma read_body_skip (pre post : list stmt) (node : stmt) (out : assignments) :
  name_assignment node = None ->
  read_body str_exn (pre ++ node :: post) out = read_body str_exn (pre ++ post) out.
Proof.
  intros Hn. revert out.
  induction pre as [|s pre IH]; intros out.
  - simpl app. now rewrite read_body_cons, Hn.
  - rewrite <- !app_comm_cons, !read_body_cons.
    destruct (name_assignment s) as [[n e]|]; [|apply IH].
    destruct (literal_eval e); [apply IH|reflexivity].
Qed.

Lemma bindings_In (body : list stmt) (n : string) (e : expr) :
  In (n, e) (bindings body) <-> In (Assign [Name n] e) body.
Proof.
  induction body as [|s body IH]; simpl; [reflexivity|].
  destruct (name_assignment s) as [[n' e']|] eqn:E.
  - apply name_assignment_Some in E. subst s. simpl. rewrite IH.
    split; (intros [H|H]; [left|now right]); congruence.
  - rewrite IH. split; [now right|]. intros [->|H]; [|assumption].
    simpl in E. discriminate.
Qed.

Lemma bindings_app (pre post : list stmt) :
  bindings (pre ++ post) = (bindings pre ++ bindings post)%list.
Proof.
  induction pre as [|s pre IH]; simpl; [reflexivity|].
  destruct (name_assignment s); simpl; now rewrite IH.
Qed.

Lemma read_body_ok (body : list stmt) (vs : list (string * value)) (out : assignments) :
  Forall2 evaluates_to (bindings body) vs ->
  read_body str_exn body out = (store_all vs out, None).
Proof.
  revert vs out. induction body as [|s body IH]; intros vs out H.
  - inversion H. reflexivity.
  - rewrite read_body_cons. simpl in H.
    destruct (name_assignment s) as [[n e]|]; [|now apply IH].
    inversion H as [|b [k v] bs vs' [Hk Hv] Hrest]; subst. simpl in Hk, Hv. subst k.
    rewrite Hv. change (store_all ((n, v) :: vs') out) with (store_all vs' (dict_set n v out)).
    now apply IH.
Qed.

Lemma all_evaluate_values (body : list stmt) :
  all_evaluate body -> exists vs, Forall2 evaluates_to (bindings body) vs.
Proof.
  unfold all_evaluate. setoid_rewrite <- bindings_In.
  induction (bindings body) as [|[n e] bs IH]; intros H.
  - exists []. constructor.
  - destruct (H n e (or_introl eq_refl)) as [v Hv].
    destruct IH as [vs Hvs]; [intros n' e' Hin; apply (H n' e'); now right|].
    exists ((n, v) :: vs). constructor; [now split|assumption].
Qed.

Lemma read_body_raise (pre post : list stmt) (n : string) (e : expr) (x : exn)
  (out : assignments) :
  all_evaluate pre ->
  literal_eval e = Raise x ->
  read_body str_exn (pre ++ Assign [Name n] e :: post) out
  = ([], Some (literal_error str_exn n x)).
Proof.
  intros Hpre He. revert out.
  induction pre as [|s pre IH]; intros out.
  - simpl. now rewrite He.
  - rewrite <- app_comm_cons, read_body_cons.
    assert (Hpre' : all_evaluate pre).
    { intros n' e' Hin. apply (Hpre n' e'). now right. }
    destruct (name_assignment s) as [[n' e']|] eqn:E; [|now apply IH].
    apply name_assignment_Some in E. subst s.
    destruct (Hpre n' e' (or_introl eq_refl)) as [v ->]. now apply IH.
Qed.

(** A body with a binding that does not evaluate has a first such binding. *)
Lemma first_failure (body : list stmt) (n : string) (e : expr) (x : exn) :
  In (Assign [Name n] e) body ->
  literal_eval e = Raise x ->
  exists pre n' e' x' post,
    body = (pre ++ Assign [Name n'] e' :: post)%list /\
    all_evaluate pre /\ literal_eval e' = Raise x'.
Proof.
  intros Hin He. induction body as [|s body IH]; [destruct Hin|].
  destruct (name_assignment s) as [[n0 e0]|] eqn:E.
  - apply name_assignment_Some in E. subst s.
    destruct (literal_eval e0) as [v0|x0] eqn:E0.
    + destruct Hin as [Heq|Hin]; [injection Heq as -> ->; congruence|].
      destruct (IH Hin) as (pre & n' & e' & x' & post & -> & Hpre & He').
      exists (Assign [Name n0] e0 :: pre), n', e', x', post. repeat split; try assumption.
      intros n1 e1 [Heq|H1]; [injection Heq as <- <-; eauto|eauto].
    + exists [], n0, e0, x0, body. repeat split; [|assumption]. intros ? ? [].
  - destruct Hin as [->|Hin]; [discriminate|].
    destruct (IH Hin) as (pre & n' & e' & x' & post & -> & Hpre & He').
    exists (s :: pre), n', e', x', post. repeat split; try assumption.
    intros n1 e1 [->|H1]; [discriminate|eauto].
Qed.

(** The keys and the values of the dictionary after a run of stores. *)
Lemma keys_dict_set (k : string) (v : value) (d : assignments) :
  keys (dict_set k v d)
  = if existsb (String.eqb k) (keys d) then keys d else (keys d ++ [k])%list.
Proof.
  unfold keys. induction d as [|[k' v'] d IH]; simpl; [reflexivity|].
  destruct (String.eqb k k'); simpl; [reflexivity|].
  rewrite IH. now destruct (existsb (String.eqb k) (map fst d)).
Qed.

Lemma filter_twice {A : Type} (f g : A -> bool) (l : list A) :
  filter f (filter g l) = filter (fun x => g x && f x) l.
Proof.
  induction l as [|a l IH]; simpl; [reflexivity|].
  destruct (g a); simpl; [destruct (f a)|]; now rewrite IH.
Qed.

Lemma keys_store_all (vs : list (string * value)) (d : assignments) :
  keys (store_all vs d)
  = (keys d
     ++ filter (fun y => negb (existsb (String.eqb y) (keys d))) (dedup (map fst vs)))%list.
Proof.
  revert d. induction vs as [|[k v] vs IH]; intros d; simpl.
  - now rewrite app_nil_r.
  - unfold store_all in *. simpl. rewrite IH, keys_dict_set.
    destruct (existsb (String.eqb k) (keys d)) eqn:Ek; simpl.
    + f_equal. rewrite filter_twice. apply filter_ext. intros y.
      destruct (String.eqb y k) eqn:Ey; [|reflexivity].
      apply String.eqb_eq in Ey. subst y. now rewrite Ek.
    + rewrite <- app_assoc. simpl. f_equal. f_equal.
      rewrite filter_twice. apply filter_ext. intros y.
      rewrite existsb_app. simpl. rewrite orb_false_r, negb_orb.
      apply andb_comm.
Qed.

Lemma get_store_all (n : string) (vs : list (string * value)) (d : assignments) :
  dict_get n (store_all vs d)
  = match last_assigned n vs with
    | Some w => Some w
    | None => dict_get n d
    end.
Proof.
  revert d. induction vs as [|[k v] vs IH]; intros d; simpl; [reflexivity|].
  unfold store_all in *. simpl. rewrite IH.
  destruct (last_assigned n vs); [reflexivity|].
  rewrite dict_get_set. now destruct (String.eqb n k).
Qed.

Lemma filter_true {A : Type} (l : list A) : filter (fun _ => true) l = l.
Proof. induction l; simpl; congruence. Qed.

Lemma last_assigned_app (n : string) (vs ws : list (string * value)) :
  last_assigned n (vs ++ ws)
  = match last_assigned n ws with
    | Some w => Some w
    | None => last_assigned n vs
    end.
Proof.
  induction vs as [|[k v] vs IH]; simpl.
  - now destruct (last_assigned n ws).
  - rewrite IH. now destruct (last_assigned n ws).
Qed.

Lemma last_assigned_None (n : string) (vs : list (string * value)) :
  (forall v, ~ In (n, v) vs) -> last_assigned n vs = None.
Proof.
  induction vs as [|[k v] vs IH]; intros H; simpl; [reflexivity|].
  rewrite IH; [|intros w Hw; apply (H w); now right].
  destruct (String.eqb n k) eqn:E; [|reflexivity].
  apply String.eqb_eq in E. subst k. exfalso. apply (H v). now left.
Qed.

(** A diagnostic comes with an empty dictionary, and is never the empty
    string. *)
Lemma read_body_error (body : list stmt) (out out' : assignments) (err : string) :
  read_body str_exn body out = (out', Some err) -> out' = [] /\ truthy_str (Some err) = true.
Proof.
  revert out. induction body as [|s body IH]; intros out; [discriminate|].
  rewrite read_body_cons.
  destruct (name_assignment s) as [[n e]|]; [|apply IH].
  destruct (literal_eval e); [apply IH|].
  intros [= <- <-]. now split.
Qed.

Lemma read_error (path : string) (src : source) (out : assignments) (err : string) :
  read_assignments_multiline str_exn path src = (out, Some err) ->
  out = [] /\ truthy_str (Some err) = true.
Proof.
  destruct src as [|e|e|body]; simpl; try (intros [= <- <-]; now split).
  apply read_body_error.
Qed.

(** The two file checks, by the outcome of reading the file. *)
Lemma check_peft_config_read (path : string) (src : source) (vars_out : assignments) :
  read_assignments_multiline str_exn path src = (vars_out, None) ->
  check_peft_config str_exn path src = check_peft_config_vars vars_out.
Proof. unfold check_peft_config. now intros ->. Qed.

Lemma check_peft_read (repr : value -> string) (path : string) (src : source)
  (vars_out : assignments) :
  read_assignments_multiline str_exn path src = (vars_out, None) ->
  check_peft repr str_exn path src = check_peft_vars repr vars_out.
Proof. unfold check_peft. now intros ->. Qed.

Lemma check_peft_config_unread (path : string) (src : source) (out : assignments)
  (err : string) :
  read_assignments_multiline str_exn path src = (out, Some err) ->
  check_peft_config str_exn path src = Ok [err].
Proof.
  intros H. unfold check_peft_config. rewrite H.
  now rewrite (proj2 (read_error _ _ _ _ H)).
Qed.

Lemma check_peft_unread (repr : value -> string) (path : string) (src : source)
  (out : assignments) (err : string) :
  read_assignments_multiline str_exn path src = (out, Some err) ->
  check_peft repr str_exn path src = Ok [err].
Proof.
  intros H. unfold check_peft. rewrite H.
  now rewrite (proj2 (read_error _ _ _ _ H)).
Qed.

End Parser.

Lemma collect_map_ok (elts : list expr) :
  (forall e, In e elts -> exists v, literal_eval e = Ok v) ->
  exists vs, collect (map _convert elts) = Ok vs.
Proof.
  induction elts as [|e elts IH]; intros H; simpl.
  - now exists [].
  - destruct (H e (or_introl eq_refl)) as [v Hv]. unfold literal_eval in Hv. rewrite Hv.
    destruct IH as [vs Hvs]; [intros e' He'; apply H; now right|].
    rewrite Hvs. simpl. now exists (v :: vs).
Qed.

Lemma literal_eval_Tuple (elts : list expr) :
  literal_eval (Tuple elts) = vs <- collect (map _convert elts) ;; Ok (VTuple vs).
Proof. reflexivity. Qed.

Lemma literal_eval_List (elts : list expr) :
  literal_eval (List elts) = vs <- collect (map _convert elts) ;; Ok (VList vs).
Proof. reflexivity. Qed.

Lemma collect_map_value (elts : list expr) (f : expr -> value) :
  (forall e, In e elts -> literal_eval e = Ok (f e)) ->
  collect (map _convert elts) = Ok (map f elts).
Proof.
  induction elts as [|e elts IH]; intros H; simpl; [reflexivity|].
  pose proof (H e (or_introl eq_refl)) as He. unfold literal_eval in He. rewrite He.
  rewrite IH; [reflexivity|]. intros e' He'. apply H. now right.
Qed.

Lemma plain_literal_value :
  forall e, plain_literal e = true -> literal_eval e = Ok (plain_value e).
Proof.
  fix IH 1. intros e.
  destruct e as [c| |elts|elts| | | | | | | | |]; simpl plain_literal; try discriminate.
  - reflexivity.
  - intros H. rewrite literal_eval_Tuple, (collect_map_value elts plain_value); [reflexivity|].
    induction elts as [|a elts IHl]; intros e' He'; [destruct He'|].
    simpl in H. apply andb_prop in H as [Ha Hl].
    destruct He' as [<-|He']; [now apply IH|now apply IHl].
  - intros H. rewrite literal_eval_List, (collect_map_value elts plain_value); [reflexivity|].
    induction elts as [|a elts IHl]; intros e' He'; [destruct He'|].
    simpl in H. apply andb_prop in H as [Ha Hl].
    destruct He' as [<-|He']; [now apply IH|now apply IHl].
Qed.

Lemma plain_literal_evaluates :
  forall e, plain_literal e = true -> exists v, literal_eval e = Ok v.
Proof. intros e H. exists (plain_value e). now apply plain_literal_value. Qed.

(** Sets and dicts of values that evaluate and can be hashed. *)
Lemma set_of_collect (it : list (result value)) (vs members : list value) :
  collect it = Ok vs ->
  (forall m, In m vs -> unhashable m = None) ->
  set_of it members
  = Ok (fold_left (fun acc v => if existsb (key_eq v) acc then acc else (acc ++ [v])%list)
          vs members).
Proof.
  revert vs members. induction it as [|c it IH]; intros vs members Hc Hh; simpl in *.
  - injection Hc as <-. reflexivity.
  - destruct c as [v|]; [simpl in Hc|discriminate].
    destruct (collect it) as [vs'|] eqn:E; [|discriminate]. simpl in Hc.
    injection Hc as <-. simpl. unfold set_add.
    rewrite (Hh v (or_introl eq_refl)). simpl.
    apply IH; [reflexivity|]. intros m Hm. apply Hh. now right.
Qed.

Lemma dict_of_zip_collect (ks vs : list (result value)) (kvs vvs : list value)
  (items : list (value * value)) :
  collect ks = Ok kvs ->
  collect vs = Ok vvs ->
  (forall k, In k kvs -> unhashable k = None) ->
  dict_of_zip ks vs items
  = Ok (fold_left (fun acc kv => dict_store (fst kv) (snd kv) acc) (combine kvs vvs) items).
Proof.
  revert vs kvs vvs items.
  induction ks as [|ck ks IH]; intros vs kvs vvs items Hk Hv Hh; simpl in *.
  - injection Hk as <-. reflexivity.
  - destruct ck as [k|]; [simpl in Hk|discriminate].
    destruct (collect ks) as [kvs'|] eqn:Ek; [|discriminate]. simpl in Hk.
    injection Hk as <-.
    destruct vs as [|cv vs]; simpl in Hv.
    + injection Hv as <-. reflexivity.
    + destruct cv as [v|]; [simpl in Hv|discriminate].
      destruct (collect vs) as [vvs'|] eqn:Ev; [|discriminate]. simpl in Hv.
      injection Hv as <-. simpl. unfold dict_setitem.
      rewrite (Hh k (or_introl eq_refl)). simpl.
      apply IH; [reflexivity|exact Ev|]. intros m Hm. apply Hh. now right.
Qed.

Lemma literal_eval_Set (elts : list expr) :
  literal_eval (Set_ elts) = vs <- set_of (map _convert elts) [] ;; Ok (VSet vs).
Proof. reflexivity. Qed.

Lemma literal_eval_Dict (ks values : list expr) :
  List.length ks = List.length values ->
  literal_eval (Dict (map Some ks) values)
  = items <- dict_of_zip (map _convert ks) (map _convert values) [] ;; Ok (VDict items).
Proof.
  intros Hl. unfold literal_eval. simpl. rewrite length_map, Hl, Nat.eqb_refl. simpl.
  now rewrite map_map.
Qed.

(** What [literal_eval] does with names, calls and operators. *)
Lemma literal_eval_Call (func : expr) (args : list expr)
  (keywords : list (option string * expr)) :
  (func = Name "set" /\ args = [] /\ keywords = [] /\
   literal_eval (Call func args keywords) = Ok (VSet []))
  \/ literal_eval (Call func args keywords)
     = Raise (ValueError (Some (Call func args keywords))).
Proof.
  unfold literal_eval. simpl.
  destruct func; try (right; reflexivity).
  destruct args; [|right; reflexivity].
  destruct keywords; [|right; reflexivity].
  simpl. destruct (String.eqb_spec id "set") as [->|_]; [left; auto|right; reflexivity].
Qed.

Lemma convert_num_Ok (e : expr) (v : value) :
  _convert_num e = Ok v -> is_number_constant e = true /\ e = Constant v.
Proof.
  destruct e as [c| | | | | | | | | | | |]; try discriminate.
  destruct c; try discriminate; simpl; intros [= <-]; now split.
Qed.

Lemma literal_eval_UnaryOp (op : unaryop) (operand : expr) (v : value) :
  literal_eval (UnaryOp op operand) = Ok v ->
  (op = UAdd \/ op = USub) /\ is_number_constant operand = true.
Proof.
  unfold literal_eval. simpl.
  destruct op; try discriminate;
    (destruct (_convert_num operand) as [w|] eqn:E; [|discriminate];
     apply convert_num_Ok in E as [E _]; intros _; split; [tauto|assumption]).
Qed.

Lemma literal_eval_BinOp (lhs rhs : expr) (op : operator) (v : value) :
  literal_eval (BinOp lhs op rhs) = Ok v ->
  (op = Add \/ op = Sub) /\
  (exists re im, rhs = Constant (VComplex re im)) /\
  (exists x, _convert_signed_num lhs = Ok x /\ isinstance_int x || isinstance_float x = true) /\
  (exists re im, v = VComplex re im).
Proof.
  unfold literal_eval. simpl.
  assert (Hop : forall o, (o = Add \/ o = Sub) ->
          (l <- _convert_signed_num lhs ;; r <- _convert_num rhs ;;
           _convert_binop (BinOp lhs o rhs) o l r) = Ok v ->
          (o = Add \/ o = Sub) /\
          (exists re im, rhs = Constant (VComplex re im)) /\
          (exists x, _convert_signed_num lhs = Ok x
                     /\ isinstance_int x || isinstance_float x = true) /\
          (exists re im, v = VComplex re im)).
  { intros o Ho. destruct (_convert_signed_num lhs) as [l|] eqn:El; [simpl|discriminate].
    destruct (_convert_num rhs) as [r|] eqn:Er; [simpl|discriminate].
    apply convert_num_Ok in Er as [_ ->].
    unfold _convert_binop.
    destruct l as [n| |x| | | | | | | | |]; try discriminate.
    - simpl. destruct r; try discriminate.
      destruct (float_of_int n) as [y|]; [|destruct Ho as [->| ->]; discriminate].
      intros Hv. split; [assumption|]. split; [eauto|]. split; [exists (VInt n); auto|].
      destruct Ho as [->| ->]; simpl in Hv; injection Hv as <-; unfold complex_add, complex_sub;
        eauto.
    - simpl. destruct r; try discriminate.
      intros Hv. split; [assumption|]. split; [eauto|]. split; [exists (VFloat x); auto|].
      destruct Ho as [->| ->]; simpl in Hv; injection Hv as <-; unfold complex_add, complex_sub;
        eauto. }
  destruct op; try discriminate; apply Hop; auto.
Qed.

(** Expressions that are not literals: sums of integers, names, calls. *)
Lemma literal_eval_rejects :
  (forall a b : Z,
      literal_eval (BinOp (Constant (VInt a)) Add (Constant (VInt b)))
      = Raise (ValueError (Some (BinOp (Constant (VInt a)) Add (Constant (VInt b))))))
  /\ (forall id, literal_eval (Name id) = Raise (ValueError (Some (Name id))))
  /\ (forall func arg args keywords,
         literal_eval (Call func (arg :: args) keywords)
         = Raise (ValueError (Some (Call func (arg :: args) keywords))))
  /\ (forall id args keywords,
         id <> "set" ->
         literal_eval (Call (Name id) args keywords)
         = Raise (ValueError (Some (Call (Name id) args keywords)))).
Proof.
  repeat split; try reflexivity.
  - intros func arg args keywords. unfold literal_eval. simpl.
    now destruct func.
  - intros id args keywords Hid. unfold literal_eval. simpl.
    destruct (String.eqb_spec id "set") as [->|_]; [congruence|].
    now destruct args, keywords.
Qed.

Section ParserClaims.

Variable str_exn : exn -> string.

Lemma truthy_literal_error (n : string) (x : exn) :
  truthy_str (Some (literal_error str_exn n x)) = true.
Proof. reflexivity. Qed.

Lemma evaluated_names (bs : list (string * expr)) (vs : list (string * value)) (n : string) :
  Forall2 evaluates_to bs vs ->
  (forall e, ~ In (n, e) bs) -> forall v, ~ In (n, v) vs.
Proof.
  induction 1 as [|[k e] [k' v'] bs vs [Hk Hv] _ IH]; intros Hn v Hin; [destruct Hin|].
  simpl in Hk. subst k'. destruct Hin as [[= -> ->]|Hin].
  - apply (Hn e). now left.
  - apply (IH (fun e0 H0 => Hn e0 (or_intror H0)) v Hin).
Qed.

(** C2 (as amended).  The parser keeps every assignment whose right-hand side
    [ast.literal_eval] evaluates, whatever the kind of value: when no
    assignment of the file fails to evaluate, the last assignment to a name
    is in the Assignment Map with its value.  Every constant (a string, a
    boolean, [None], bytes, as well as a number) evaluates to itself; a list
    or tuple display evaluates to the list or tuple of the values of its
    members; a set display to the set of those values, equal ones kept once,
    and a dict display to the dict of its items, a repeated key keeping its
    first spelling and its last value, when the members of the set and the
    keys of the dict can be hashed. *)
Theorem C2_python_literals_are_kept (path : string) (pre post : list stmt)
  (name : string) (e : expr) (v : value) :
  literal_eval e = Ok v ->
  all_evaluate (pre ++ post) ->
  (forall e0, ~ In (Assign [Name name] e0) post) ->
  (exists out,
      read_assignments_multiline str_exn path (Parsed (pre ++ Assign [Name name] e :: post))
      = (out, None) /\
      dict_get name out = Some v)
  /\ (forall c, literal_eval (Constant c) = Ok c)
  /\ (forall e0, plain_literal e0 = true -> literal_eval e0 = Ok (plain_value e0))
  /\ (forall elts vs,
         collect (map literal_eval elts) = Ok vs ->
         literal_eval (List elts) = Ok (VList vs) /\
         literal_eval (Tuple elts) = Ok (VTuple vs))
  /\ (forall elts vs,
         collect (map literal_eval elts) = Ok vs ->
         (forall m, In m vs -> unhashable m = None) ->
         literal_eval (Set_ elts) = Ok (VSet (set_members vs)))
  /\ (forall ks values kvs vvs,
         List.length ks = List.length values ->
         collect (map literal_eval ks) = Ok kvs ->
         collect (map literal_eval values) = Ok vvs ->
         (forall k, In k kvs -> unhashable k = None) ->
         literal_eval (Dict (map Some ks) values)
         = Ok (VDict (dict_items (combine kvs vvs)))).
Proof.
  intros He Hall Hpost.
  split; [|split; [reflexivity|split; [apply plain_literal_value|split; [|split]]]].
  - assert (Hbody : all_evaluate (pre ++ Assign [Name name] e :: post)).
    { intros n0 e0 Hin. apply in_app_or in Hin as [Hin|[Heq|Hin]].
      - apply (Hall n0 e0), in_or_app. now left.
      - injection Heq as <- <-. eauto.
      - apply (Hall n0 e0), in_or_app. now right. }
    apply all_evaluate_values in Hbody as [vs Hvs].
    exists (store_all vs []). simpl. split; [now apply read_body_ok|].
    rewrite get_store_all.
    rewrite bindings_app in Hvs. simpl in Hvs.
    apply Forall2_app_inv_l in Hvs as (vs1 & vs2 & _ & H2 & ->).
    inversion H2 as [|b [k w] bs vs3 [Hk Hw] H3]; subst. simpl in Hk, Hw. subst k.
    rewrite He in Hw. injection Hw as <-.
    rewrite last_assigned_app. simpl.
    rewrite (last_assigned_None name vs3), String.eqb_refl; [reflexivity|].
    apply (evaluated_names _ _ _ H3). intros e0 Hin. apply (Hpost e0).
    now apply bindings_In.
  - intros elts vs Hvs. change (map literal_eval elts) with (map _convert elts) in Hvs.
    rewrite literal_eval_List, literal_eval_Tuple, Hvs. now split.
  - intros elts vs Hvs Hh. change (map literal_eval elts) with (map _convert elts) in Hvs.
    rewrite literal_eval_Set, (set_of_collect _ vs [] Hvs Hh). reflexivity.
  - intros ks values kvs vvs Hl Hk Hv Hh.
    change (map literal_eval ks) with (map _convert ks) in Hk.
    change (map literal_eval values) with (map _convert values) in Hv.
    rewrite (literal_eval_Dict ks values Hl),
      (dict_of_zip_collect _ _ kvs vvs [] Hk Hv Hh). reflexivity.
Qed.

(** C3 (as amended).  A file with a top-level assignment [name = value] whose
    value [ast.literal_eval] cannot evaluate fails as a whole: the Assignment
    Map is empty and the one diagnostic names the variable of the first such
    assignment; [check_peft_config] and [check_peft] return that diagnostic
    alone.  It cannot evaluate a name, an attribute, a subscript, a starred
    expression, a call other than [set()] without arguments, an operator other
    than a sign on a number constant and than a signed [int] or [float] plus
    or minus an imaginary constant; so [1 + 1] fails, while [set()] and
    [1 + 2j] are values. *)
Theorem C3_non_literal_fails_the_file (repr : value -> string) (path : string)
  (body : list stmt) (name : string) (e : expr) (x : exn) :
  In (Assign [Name name] e) body ->
  literal_eval e = Raise x ->
  (exists pre name' e' x' post,
      body = (pre ++ Assign [Name name'] e' :: post)%list /\
      all_evaluate pre /\
      literal_eval e' = Raise x' /\
      read_assignments_multiline str_exn path (Parsed body)
      = ([], Some ("Could not parse value for " ++ name' ++ ": " ++ str_exn x')) /\
      check_peft_config str_exn path (Parsed body)
      = Ok ["Could not parse value for " ++ name' ++ ": " ++ str_exn x'] /\
      check_peft repr str_exn path (Parsed body)
      = Ok ["Could not parse value for " ++ name' ++ ": " ++ str_exn x'])
  /\ (forall id, literal_eval (Name id) = Raise (ValueError (Some (Name id))))
  /\ (forall obj attr,
         literal_eval (Attribute obj attr) = Raise (ValueError (Some (Attribute obj attr))))
  /\ (forall obj idx,
         literal_eval (Subscript obj idx) = Raise (ValueError (Some (Subscript obj idx))))
  /\ (forall item, literal_eval (Starred item) = Raise (ValueError (Some (Starred item))))
  /\ (forall func args keywords,
         (func = Name "set" /\ args = [] /\ keywords = [] /\
          literal_eval (Call func args keywords) = Ok (VSet []))
         \/ literal_eval (Call func args keywords)
            = Raise (ValueError (Some (Call func args keywords))))
  /\ (forall op operand v,
         literal_eval (UnaryOp op operand) = Ok v ->
         (op = UAdd \/ op = USub) /\ is_number_constant operand = true)
  /\ (forall lhs op rhs v,
         literal_eval (BinOp lhs op rhs) = Ok v ->
         (op = Add \/ op = Sub) /\
         (exists re im, rhs = Constant (VComplex re im)) /\
         (exists l, _convert_signed_num lhs = Ok l
                    /\ isinstance_int l || isinstance_float l = true) /\
         (exists re im, v = VComplex re im))
  /\ (forall a b : Z,
         literal_eval (BinOp (Constant (VInt a)) Add (Constant (VInt b)))
         = Raise (ValueError (Some (BinOp (Constant (VInt a)) Add (Constant (VInt b)))))).
Proof.
  intros Hin He. split.
  - destruct (first_failure body name e x Hin He)
      as (pre & n' & e' & x' & post & -> & Hpre & He').
    exists pre, n', e', x', post.
    pose proof (read_body_raise str_exn pre post n' e' x' [] Hpre He') as Hread.
    repeat split; try assumption.
    + unfold check_peft_config, read_assignments_multiline. now rewrite Hread.
    + unfold check_peft, read_assignments_multiline. now rewrite Hread.
  - repeat split; try reflexivity.
    + apply literal_eval_Call.
    + now apply literal_eval_UnaryOp in H.
    + now apply literal_eval_UnaryOp in H.
    + now apply literal_eval_BinOp in H.
    + now apply literal_eval_BinOp in H.
    + now apply literal_eval_BinOp in H.
    + now apply literal_eval_BinOp in H.
Qed.

(** C9.  When every top-level assignment [name = value] of a file evaluates,
    the Assignment Map holds one entry per assigned name, in the order of the
    first assignments, each bound to the value last assigned to it.  A
    statement of any other kind (an expression statement such as a call, an
    import, a conditional, an assignment with several targets or with an
    attribute or subscript target) changes nothing: the result is that of the
    file without it. *)
Theorem C9_assignments_in_order_last_write_wins (path : string) (body : list stmt)
  (vs : list (string * value)) :
  Forall2 evaluates_to (bindings body) vs ->
  (exists out,
      read_assignments_multiline str_exn path (Parsed body) = (out, None) /\
      keys out = dedup (map fst vs) /\
      (forall n, dict_get n out = last_assigned n vs))
  /\ (forall n e, In (n, e) (bindings body) <-> In (Assign [Name n] e) body)
  /\ (forall pre node post out0,
         name_assignment node = None ->
         read_body str_exn (pre ++ node :: post) out0 = read_body str_exn (pre ++ post) out0)
  /\ (forall node, name_assignment node = None <-> forall n e, node <> Assign [Name n] e)
  /\ (forall call, name_assignment (Expr call) = None)
  /\ (forall names, name_assignment (Import names) = None)
  /\ (forall module names, name_assignment (ImportFrom module names) = None)
  /\ (forall test then_ else_, name_assignment (If test then_ else_) = None)
  /\ (forall t1 t2 ts value, name_assignment (Assign (t1 :: t2 :: ts) value) = None)
  /\ (forall obj attr value, name_assignment (Assign [Attribute obj attr] value) = None)
  /\ (forall obj idx value, name_assignment (Assign [Subscript obj idx] value) = None).
Proof.
  intros Hvs. split; [|split; [|split; [|split]]].
  - exists (store_all vs []). simpl. split; [now apply read_body_ok|]. split.
    + rewrite keys_store_all. simpl. apply filter_true.
    + intros n. rewrite get_store_all. now destruct (last_assigned n vs).
  - intros n e. apply bindings_In.
  - intros pre node post out0. apply read_body_skip.
  - intros node. split.
    + intros Hn n e ->. discriminate.
    + intros Hn. destruct (name_assignment node) as [[n e]|] eqn:E; [|reflexivity].
      apply name_assignment_Some in E. now apply Hn in E.
  - repeat split; intros; try reflexivity. now destruct t1.
Qed.

End ParserClaims.

(** ** The data schema *)

Section Shapes.

Variable repr : value -> string.

Lemma is_numeric_iff (x : value) :
  is_numeric x = true
  <-> (exists n, x = VInt n) \/ (exists b, x = VBool b) \/ (exists f, x = VFloat f).
Proof.
  split.
  - destruct x; try discriminate; eauto.
  - intros [[n ->]|[[b ->]|[f ->]]]; reflexivity.
Qed.

(** The first element of a list that fails a test. *)
Lemma first_offender {A : Type} (f : A -> bool) (l : list A) :
  forallb f l = false ->
  exists pre x post, l = (pre ++ x :: post)%list /\ forallb f pre = true /\ f x = false.
Proof.
  induction l as [|a l IH]; simpl; [discriminate|].
  destruct (f a) eqn:E; simpl.
  - intros H. destruct (IH H) as (pre & x & post & -> & Hpre & Hx).
    exists (a :: pre), x, post. simpl. now rewrite E.
  - intros _. now exists [], a, l.
Qed.

Lemma forallb_Forall {A : Type} (f : A -> bool) (l : list A) :
  forallb f l = true <-> Forall (fun x => f x = true) l.
Proof.
  rewrite forallb_forall, Forall_forall. reflexivity.
Qed.

(** [repr] returns for a value without a long integer, and raises
    [ValueError] otherwise. *)
Lemma repr_of_shown (v : value) : holds_long_int v = false -> repr_of repr v = Ok (repr v).
Proof. unfold repr_of. now intros ->. Qed.

Lemma repr_of_raises (v : value) :
  holds_long_int v = true -> repr_of repr v = Raise ValueError_digits.
Proof. unfold repr_of. now intros ->. Qed.

Lemma repr_of_cases (v : value) :
  repr_of repr v = Ok (repr v) \/ repr_of repr v = Raise ValueError_digits.
Proof. unfold repr_of. destruct (holds_long_int v); auto. Qed.

Lemma check_vector_from_ok (i : nat) (vec : list value) :
  forallb is_numeric vec = true -> check_vector_from repr i vec = Ok (true, "").
Proof.
  revert i. induction vec as [|el vec IH]; intros i; simpl; [reflexivity|].
  destruct (is_numeric el); simpl; [apply IH|discriminate].
Qed.

Lemma check_vector_from_offender (i : nat) (pre post : list value) (el : value) :
  forallb is_numeric pre = true ->
  is_numeric el = false ->
  check_vector_from repr i (pre ++ el :: post)
  = (shown <- repr_of repr el ;;
     Ok (false,
         "Element at position " ++ str_nat (i + List.length pre) ++ " is not numeric: "
           ++ shown)).
Proof.
  revert i. induction pre as [|a pre IH]; intros i Hpre Hel; simpl.
  - rewrite Hel. simpl. now rewrite Nat.add_0_r.
  - simpl in Hpre. apply andb_prop in Hpre as [Ha Hpre]. rewrite Ha. simpl.
    rewrite IH by assumption. now rewrite Nat.add_succ_comm.
Qed.

Lemma offender_not_true (c : result string) (f : string -> bool * string) (msg : string) :
  (forall shown, fst (f shown) = false) -> (shown <- c ;; Ok (f shown)) <> Ok (true, msg).
Proof.
  intros Hf. destruct c as [shown|]; simpl; [|discriminate].
  intros [= H]. specialize (Hf shown). rewrite H in Hf. discriminate.
Qed.

Lemma numeric_list_forallb (v : value) (length : Z) :
  numeric_list v length
  <-> exists items,
      v = VList items /\ Z.of_nat (List.length items) = length /\
      forallb is_numeric items = true.
Proof.
  unfold numeric_list. split; intros (items & Hv & Hl & Hn); exists items;
    (repeat split; [assumption..|]); now apply forallb_Forall.
Qed.

(** A check that answers [True] met a list of numbers, and says nothing. *)
Lemma check_vector_from_flag (i : nat) (vec : list value) (msg : string) :
  check_vector_from repr i vec = Ok (true, msg) ->
  forallb is_numeric vec = true /\ msg = "".
Proof.
  intros H. destruct (forallb is_numeric vec) eqn:E.
  - rewrite (check_vector_from_ok i vec E) in H. injection H as <-. now split.
  - apply first_offender in E as (pre & x & post & -> & Hpre & Hx).
    rewrite (check_vector_from_offender i pre post x Hpre Hx) in H.
    exfalso. revert H. now apply (offender_not_true _ (fun shown => (false, _))).
Qed.

Lemma check_vector_flag (v : value) (length : Z) (msg : string) :
  check_vector repr v length = Ok (true, msg) -> numeric_list v length /\ msg = "".
Proof.
  rewrite numeric_list_forallb. unfold check_vector.
  destruct v as [| | | | | | | |items| | |]; try discriminate.
  destruct (Z.eqb_spec (Z.of_nat (List.length items)) length) as [Hl|Hl];
    simpl; [|discriminate].
  intros H. apply check_vector_from_flag in H as [Hn ->].
  split; [|reflexivity]. now exists items.
Qed.

Lemma check_vector_true (v : value) (length : Z) :
  check_vector repr v length = Ok (true, "") <-> numeric_list v length.
Proof.
  split.
  - intros H. now apply check_vector_flag in H.
  - rewrite numeric_list_forallb. intros (items & -> & Hl & Hn).
    unfold check_vector. rewrite Hl, Z.eqb_refl. simpl.
    now apply check_vector_from_ok.
Qed.

Lemma check_row_from_ok (r_idx c_idx : nat) (row : list value) :
  forallb is_numeric row = true -> check_row_from repr r_idx c_idx row = Ok None.
Proof.
  revert c_idx. induction row as [|el row IH]; intros c_idx; simpl; [reflexivity|].
  destruct (is_numeric el); simpl; [apply IH|discriminate].
Qed.

Lemma check_row_from_offender (r_idx c_idx : nat) (pre post : list value) (el : value) :
  forallb is_numeric pre = true ->
  is_numeric el = false ->
  check_row_from repr r_idx c_idx (pre ++ el :: post)
  = (shown <- repr_of repr el ;;
     Ok (Some ("Non-numeric at (" ++ str_nat r_idx ++ ","
               ++ str_nat (c_idx + List.length pre) ++ "): " ++ shown))).
Proof.
  revert c_idx. induction pre as [|a pre IH]; intros c_idx Hpre Hel; simpl.
  - rewrite Hel. simpl. now rewrite Nat.add_0_r.
  - simpl in Hpre. apply andb_prop in Hpre as [Ha Hpre]. rewrite Ha. simpl.
    rewrite IH by assumption. now rewrite Nat.add_succ_comm.
Qed.

Lemma check_row_from_None (r_idx c_idx : nat) (row : list value) :
  check_row_from repr r_idx c_idx row = Ok None <-> forallb is_numeric row = true.
Proof.
  split; [|apply check_row_from_ok].
  intros H. destruct (forallb is_numeric row) eqn:E; [reflexivity|].
  apply first_offender in E as (pre & x & post & -> & Hpre & Hx).
  rewrite (check_row_from_offender r_idx c_idx pre post x Hpre Hx) in H.
  destruct (repr_of repr x); discriminate.
Qed.

Lemma check_matrix_from_flag (cols : Z) (r_idx : nat) (mat : list value) (msg : string) :
  check_matrix_from repr cols r_idx mat = Ok (true, msg) ->
  Forall (fun row => numeric_list row cols) mat /\ msg = "".
Proof.
  revert r_idx. induction mat as [|row mat IH]; intros r_idx; simpl.
  - intros [= <-]. split; [constructor|reflexivity].
  - destruct row as [| | | | | | | |els| | |]; try discriminate.
    destruct (Z.eqb_spec (Z.of_nat (List.length els)) cols) as [Hl|Hl]; simpl;
      [|discriminate].
    destruct (check_row_from repr r_idx 0 els) as [[found|]|] eqn:E; simpl;
      try discriminate.
    apply check_row_from_None in E. intros H. apply IH in H as [Hm ->].
    split; [|reflexivity]. constructor; [|assumption].
    apply numeric_list_forallb. now exists els.
Qed.

Lemma check_matrix_from_ok (cols : Z) (r_idx : nat) (mat : list value) :
  Forall (fun row => numeric_list row cols) mat ->
  check_matrix_from repr cols r_idx mat = Ok (true, "").
Proof.
  revert r_idx. induction mat as [|row mat IH]; intros r_idx H; simpl; [reflexivity|].
  inversion H as [|x l Hrow Hmat]; subst.
  apply numeric_list_forallb in Hrow as (els & -> & Hl & Hn).
  rewrite Hl, Z.eqb_refl. simpl. rewrite (check_row_from_ok r_idx 0 els Hn). simpl.
  now apply IH.
Qed.

Lemma check_matrix_from_true (cols : Z) (r_idx : nat) (mat : list value) :
  check_matrix_from repr cols r_idx mat = Ok (true, "")
  <-> Forall (fun row => numeric_list row cols) mat.
Proof.
  split; [|apply check_matrix_from_ok]. intros H. now apply check_matrix_from_flag in H.
Qed.

Lemma check_matrix_flag (mat : value) (rows cols : Z) (msg : string) :
  check_matrix repr mat rows cols = Ok (true, msg) ->
  numeric_matrix mat rows cols /\ msg = "".
Proof.
  unfold check_matrix, numeric_matrix.
  destruct mat as [| | | | | | | |items| | |]; try discriminate.
  destruct (Z.eqb_spec (Z.of_nat (List.length items)) rows) as [Hl|Hl];
    simpl; [|discriminate].
  intros H. apply check_matrix_from_flag in H as [Hm ->].
  split; [|reflexivity]. now exists items.
Qed.

Lemma check_matrix_true (mat : value) (rows cols : Z) :
  check_matrix repr mat rows cols = Ok (true, "") <-> numeric_matrix mat rows cols.
Proof.
  split.
  - intros H. now apply check_matrix_flag in H.
  - intros (items & -> & Hl & Hn). unfold check_matrix. rewrite Hl, Z.eqb_refl. simpl.
    now apply check_matrix_from_ok.
Qed.

(** The checks return on values without a long integer. *)
Lemma holds_long_int_items (items : list value) (el : value) :
  existsb holds_long_int items = false -> In el items -> holds_long_int el = false.
Proof.
  intros H Hin. destruct (holds_long_int el) eqn:E; [|reflexivity].
  rewrite <- H. symmetry. apply existsb_exists. now exists el.
Qed.

Lemma check_vector_from_returns (i : nat) (vec : list value) :
  existsb holds_long_int vec = false -> exists c, check_vector_from repr i vec = Ok c.
Proof.
  revert i. induction vec as [|el vec IH]; intros i H; simpl; [eauto|].
  simpl in H. apply orb_false_elim in H as [Hel Hvec].
  destruct (is_numeric el); simpl; [now apply IH|].
  rewrite (repr_of_shown el Hel). simpl. eauto.
Qed.

Lemma check_vector_returns (v : value) (length : Z) :
  holds_long_int v = false -> exists c, check_vector repr v length = Ok c.
Proof.
  unfold check_vector. destruct v as [| | | | | | | |items| | |]; eauto.
  destruct (negb (Z.of_nat (List.length items) =? length)); [eauto|].
  simpl. apply check_vector_from_returns.
Qed.

Lemma check_row_from_returns (r_idx c_idx : nat) (row : list value) :
  existsb holds_long_int row = false -> exists c, check_row_from repr r_idx c_idx row = Ok c.
Proof.
  revert c_idx. induction row as [|el row IH]; intros c_idx H; simpl; [eauto|].
  simpl in H. apply orb_false_elim in H as [Hel Hrow].
  destruct (is_numeric el); simpl; [now apply IH|].
  rewrite (repr_of_shown el Hel). simpl. eauto.
Qed.

Lemma check_matrix_from_returns (cols : Z) (r_idx : nat) (mat : list value) :
  existsb holds_long_int mat = false ->
  exists c, check_matrix_from repr cols r_idx mat = Ok c.
Proof.
  revert r_idx. induction mat as [|row mat IH]; intros r_idx H; simpl; [eauto|].
  simpl in H. apply orb_false_elim in H as [Hrow Hmat].
  destruct row as [| | | | | | | |els| | |]; eauto.
  destruct (negb (Z.of_nat (List.length els) =? cols)); [eauto|].
  simpl in Hrow. destruct (check_row_from_returns r_idx 0 els Hrow) as [[msg|] ->]; simpl;
    [eauto|now apply IH].
Qed.

Lemma check_matrix_returns (mat : value) (rows cols : Z) :
  holds_long_int mat = false -> exists c, check_matrix repr mat rows cols = Ok c.
Proof.
  unfold check_matrix. destruct mat as [| | | | | | | |items| | |]; eauto.
  destruct (negb (Z.of_nat (List.length items) =? rows)); [eauto|].
  simpl. apply check_matrix_from_returns.
Qed.

(** The only exception of a check is that of [repr]. *)
Lemma check_vector_from_raises (i : nat) (vec : list value) (x : exn) :
  check_vector_from repr i vec = Raise x -> x = ValueError_digits.
Proof.
  revert i. induction vec as [|el vec IH]; intros i; simpl; [discriminate|].
  destruct (is_numeric el); simpl; [apply IH|].
  destruct (repr_of_cases el) as [-> | ->]; simpl; congruence.
Qed.

Lemma check_vector_raises (v : value) (length : Z) (x : exn) :
  check_vector repr v length = Raise x -> x = ValueError_digits.
Proof.
  unfold check_vector. destruct v as [| | | | | | | |items| | |]; try discriminate.
  destruct (negb (Z.of_nat (List.length items) =? length)); [discriminate|].
  apply check_vector_from_raises.
Qed.

Lemma check_row_from_raises (r_idx c_idx : nat) (row : list value) (x : exn) :
  check_row_from repr r_idx c_idx row = Raise x -> x = ValueError_digits.
Proof.
  revert c_idx. induction row as [|el row IH]; intros c_idx; simpl; [discriminate|].
  destruct (is_numeric el); simpl; [apply IH|].
  destruct (repr_of_cases el) as [-> | ->]; simpl; congruence.
Qed.

Lemma check_matrix_from_raises (cols : Z) (r_idx : nat) (mat : list value) (x : exn) :
  check_matrix_from repr cols r_idx mat = Raise x -> x = ValueError_digits.
Proof.
  revert r_idx. induction mat as [|row mat IH]; intros r_idx; simpl; [discriminate|].
  destruct row as [| | | | | | | |els| | |]; try discriminate.
  destruct (negb (Z.of_nat (List.length els) =? cols)); [discriminate|].
  destruct (check_row_from repr r_idx 0 els) as [[msg|]|y] eqn:E; simpl.
  - discriminate.
  - apply IH.
  - intros [= <-]. now apply check_row_from_raises in E.
Qed.

Lemma check_matrix_raises (mat : value) (rows cols : Z) (x : exn) :
  check_matrix repr mat rows cols = Raise x -> x = ValueError_digits.
Proof.
  unfold check_matrix. destruct mat as [| | | | | | | |items| | |]; try discriminate.
  destruct (negb (Z.of_nat (List.length items) =? rows)); [discriminate|].
  apply check_matrix_from_raises.
Qed.

Lemma report_app (prefix : string) (check : bool * string) (errors : list string) :
  report prefix check errors = (errors ++ reported prefix check)%list.
Proof.
  unfold report, reported, append. destruct check as [[] msg]; simpl;
    [now rewrite app_nil_r|reflexivity].
Qed.

(** With the four variables present, the checks run in turn and every one
    that returns contributes on its own. *)
Lemma check_peft_vars_present (vars_out : assignments) (b A B W : value) :
  dict_get "b" vars_out = Some b ->
  dict_get "A" vars_out = Some A ->
  dict_get "B" vars_out = Some B ->
  dict_get "Wprime" vars_out = Some W ->
  check_peft_vars repr vars_out
  = (cb <- check_vector repr b 4 ;;
     cA <- check_matrix repr A 2 1 ;;
     cB <- check_matrix repr B 1 4 ;;
     cW <- check_matrix repr W 2 4 ;;
     Ok (reported "b must be a numeric list of length 4: " cb
         ++ reported "A must be a 2x1 numeric matrix: " cA
         ++ reported "B must be a 1x4 numeric matrix: " cB
         ++ reported "Wprime must be a 2x4 numeric matrix: " cW)%list).
Proof.
  intros Hb HA HB HW. unfold check_peft_vars.
  rewrite missing_app.
  assert (Habs : absent required_peft vars_out = []).
  { apply absent_nil. unfold required_peft. intros k Hk. simpl in Hk.
    repeat (destruct Hk as [<-|Hk]; [eapply dict_in_get; eassumption|]).
    destruct Hk. }
  rewrite Habs. simpl.
  rewrite (getitem_get _ _ _ Hb), (getitem_get _ _ _ HA), (getitem_get _ _ _ HB),
    (getitem_get _ _ _ HW). simpl.
  destruct (check_vector repr b 4) as [cb|]; [simpl|reflexivity].
  destruct (check_matrix repr A 2 1) as [cA|]; [simpl|reflexivity].
  destruct (check_matrix repr B 1 4) as [cB|]; [simpl|reflexivity].
  destruct (check_matrix repr W 2 4) as [cW|]; [simpl|reflexivity].
  rewrite !report_app. simpl. f_equal. now rewrite <- !app_assoc.
Qed.

End Shapes.

Section ShapeClaims.

Variable repr : value -> string.

(** C1 (as amended).  A boolean counts as a number, [bool] being a subclass of
    [int]: [is_numeric] holds exactly for the instances of [int] (booleans
    among them) and of [float], and [check_matrix] answers [True] with an empty
    message exactly for a list of [rows] lists of [cols] such values.  A
    matrix of shape 2x4 with a boolean element is accepted.  The first element
    of a row that is of another type is the one the row loop stops at: it is
    reported with its row, its column and its [repr] when the [repr] can be
    printed, and [repr] raises [ValueError] when the element holds an integer
    of more than 4300 digits. *)
Theorem C1_booleans_count_as_numbers :
  (forall x,
      is_numeric x = true
      <-> (exists n, x = VInt n) \/ (exists b, x = VBool b) \/ (exists f, x = VFloat f))
  /\ (forall mat rows cols,
         check_matrix repr mat rows cols = Ok (true, "") <-> numeric_matrix mat rows cols)
  /\ (forall r_idx pre el post,
         Forall (fun x => is_numeric x = true) pre ->
         is_numeric el = false ->
         (holds_long_int el = false ->
          check_row_from repr r_idx 0 (pre ++ el :: post)
          = Ok (Some ("Non-numeric at (" ++ str_nat r_idx ++ "," ++ str_nat (List.length pre)
                      ++ "): " ++ repr el)))
         /\ (holds_long_int el = true ->
             check_row_from repr r_idx 0 (pre ++ el :: post) = Raise ValueError_digits))
  /\ (forall b : bool,
         check_matrix repr
           (VList [VList [VInt 1; VInt 2; VInt 3; VBool b];
                   VList [VInt 5; VInt 6; VInt 7; VInt 8]]) 2 4
         = Ok (true, "")).
Proof.
  split; [apply is_numeric_iff|]. split; [apply check_matrix_true|]. split.
  - intros r_idx pre el post Hpre Hel. apply forallb_Forall in Hpre.
    rewrite (check_row_from_offender repr r_idx 0 pre post el Hpre Hel).
    split; intros Hlong.
    + now rewrite (repr_of_shown repr el Hlong).
    + now rewrite (repr_of_raises repr el Hlong).
  - intros b. reflexivity.
Qed.



End ShapeClaims.

(** ** What the checks can raise *)

Lemma present_value (required : list string) (vars_out : assignments) (k : string) :
  absent required vars_out = [] -> In k required -> exists v, dict_get k vars_out = Some v.
Proof.
  intros Habs Hk. pose proof (proj1 (absent_nil _ _) Habs k Hk) as H.
  unfold dict_in in H. destruct (dict_get k vars_out) as [v|]; [now exists v|discriminate].
Qed.

Lemma int_errors_raises (name : string) (v : value) (x : exn) :
  int_errors name v = Raise x -> x = ValueError_digits.
Proof.
  unfold int_errors. destruct (int_value v) as [n|]; [|discriminate].
  destruct (n <? 0); [|discriminate].
  destruct (format_int_cases v) as [[shown ->]|[-> _]]; simpl; congruence.
Qed.

Lemma even_errors_raises (name : string) (v : value) (x : exn) :
  even_errors name v = Raise x -> x = ValueError_digits.
Proof.
  unfold even_errors. destruct (int_value v) as [n|]; [|discriminate].
  destruct (Z.even n); [discriminate|].
  destruct (format_int_cases v) as [[shown ->]|[-> _]]; simpl; congruence.
Qed.

Lemma format_int_returns (v : value) :
  holds_long_int v = false -> exists shown, format_int v = Ok shown.
Proof.
  destruct (format_int_cases v) as [H|[_ (n & -> & Hn)]]; [auto|].
  simpl. congruence.
Qed.

Lemma int_errors_returns (name : string) (v : value) :
  holds_long_int v = false -> exists e, int_errors name v = Ok e.
Proof.
  intros H. unfold int_errors. destruct (int_value v) as [n|]; [|eauto].
  destruct (n <? 0); [|eauto].
  destruct (format_int_returns v H) as [shown ->]. simpl. eauto.
Qed.

Lemma even_errors_returns (name : string) (v : value) :
  holds_long_int v = false -> exists e, even_errors name v = Ok e.
Proof.
  intros H. unfold even_errors. destruct (int_value v) as [n|]; [|eauto].
  destruct (Z.even n); [eauto|].
  destruct (format_int_returns v H) as [shown ->]. simpl. eauto.
Qed.

Lemma int_errors_length (name : string) (v : value) (e : list string) :
  int_errors name v = Ok e -> (List.length e <= 1)%nat.
Proof.
  unfold int_errors. destruct (int_value v) as [n|]; [destruct (n <? 0)|].
  - destruct (format_int v); simpl; [|discriminate]. intros [= <-]. simpl. lia.
  - intros [= <-]. simpl. lia.
  - intros [= <-]. simpl. lia.
Qed.

Lemma even_errors_length (name : string) (v : value) (e : list string) :
  even_errors name v = Ok e -> (List.length e <= 1)%nat.
Proof.
  unfold even_errors. destruct (int_value v) as [n|]; [destruct (Z.even n)|].
  - intros [= <-]. simpl. lia.
  - destruct (format_int v); simpl; [|discriminate]. intros [= <-]. simpl. lia.
  - intros [= <-]. simpl. lia.
Qed.

Lemma gather_raises (steps : list (result (list string))) (x : exn) :
  Forall (fun step => forall y, step = Raise y -> y = ValueError_digits) steps ->
  gather steps = Raise x -> x = ValueError_digits.
Proof.
  induction 1 as [|step steps Hs _ IH]; simpl; [discriminate|].
  destruct step as [e|y]; simpl.
  - destruct (gather steps) as [es|z]; simpl; [discriminate|].
    intros [= <-]. now apply IH.
  - intros [= <-]. now apply Hs.
Qed.

Lemma gather_returns (steps : list (result (list string))) :
  Forall (fun step => exists e, step = Ok e) steps -> exists es, gather steps = Ok es.
Proof.
  induction 1 as [|step steps [e ->] _ [es IH]]; simpl; [eauto|].
  rewrite IH. simpl. eauto.
Qed.

Lemma gather_nil (steps : list (result (list string))) :
  gather steps = Ok [] <-> Forall (fun step => step = Ok []) steps.
Proof.
  induction steps as [|step steps IH]; simpl.
  - split; [constructor|reflexivity].
  - split.
    + destruct step as [e|]; simpl; [|discriminate].
      destruct (gather steps) as [es|]; simpl; [|discriminate].
      intros [= H]. apply app_eq_nil in H as [-> ->].
      constructor; [reflexivity|]. now apply IH.
    + intros H. inversion H as [|s l Hs Hl]; subst. apply IH in Hl. now rewrite Hl.
Qed.

Lemma gather_length (steps : list (result (list string))) (es : list string) :
  Forall (fun step => forall e, step = Ok e -> (List.length e <= 1)%nat) steps ->
  gather steps = Ok es -> (List.length es <= List.length steps)%nat.
Proof.
  intros H. revert es. induction H as [|step steps Hs _ IH]; intros es; simpl.
  - intros [= <-]. simpl. lia.
  - destruct step as [e|]; simpl; [|discriminate].
    destruct (gather steps) as [es'|]; simpl; [|discriminate].
    intros [= <-]. rewrite length_app. specialize (Hs e eq_refl). specialize (IH es' eq_refl).
    lia.
Qed.

Lemma check_peft_config_vars_raises (vars_out : assignments) (x : exn) :
  check_peft_config_vars vars_out = Raise x -> x = ValueError_digits.
Proof.
  destruct (absent required_config vars_out) as [|k ks] eqn:E.
  - destruct (present_value _ _ "r" E) as [r Hr]; [simpl; tauto|].
    destruct (present_value _ _ "P" E) as [P HP]; [simpl; tauto|].
    destruct (present_value _ _ "d_a" E) as [d Hd]; [simpl; tauto|].
    destruct (present_value _ _ "num_trainable_lora" E) as [l Hl]; [simpl; tauto|].
    destruct (present_value _ _ "num_trainable_soft" E) as [s Hs]; [simpl; tauto|].
    destruct (present_value _ _ "num_trainable_adapters" E) as [a Ha]; [simpl; tauto|].
    destruct (present_value _ _ "num_trainable_ia3" E) as [i Hi]; [simpl; tauto|].
    rewrite (check_peft_config_vars_present _ _ _ _ _ _ _ _ Hr HP Hd Hl Hs Ha Hi).
    apply gather_raises.
    repeat (constructor; [first [apply int_errors_raises|apply even_errors_raises]|]).
    constructor.
  - unfold check_peft_config_vars. rewrite missing_app, E. simpl. discriminate.
Qed.

Lemma check_peft_vars_raises (repr : value -> string) (vars_out : assignments) (x : exn) :
  check_peft_vars repr vars_out = Raise x -> x = ValueError_digits.
Proof.
  destruct (absent required_peft vars_out) as [|k ks] eqn:E.
  - destruct (present_value _ _ "b" E) as [b Hb]; [simpl; tauto|].
    destruct (present_value _ _ "A" E) as [A HA]; [simpl; tauto|].
    destruct (present_value _ _ "B" E) as [B HB]; [simpl; tauto|].
    destruct (present_value _ _ "Wprime" E) as [W HW]; [simpl; tauto|].
    rewrite (check_peft_vars_present repr _ _ _ _ _ Hb HA HB HW).
    destruct (check_vector repr b 4) as [cb|y] eqn:Eb; simpl;
      [|intros [= <-]; now apply check_vector_raises in Eb].
    destruct (check_matrix repr A 2 1) as [cA|y] eqn:EA; simpl;
      [|intros [= <-]; now apply check_matrix_raises in EA].
    destruct (check_matrix repr B 1 4) as [cB|y] eqn:EB; simpl;
      [|intros [= <-]; now apply check_matrix_raises in EB].
    destruct (check_matrix repr W 2 4) as [cW|y] eqn:EW; simpl;
      [discriminate|intros [= <-]; now apply check_matrix_raises in EW].
  - unfold check_peft_vars. rewrite missing_app, E. simpl. discriminate.
Qed.

Lemma check_peft_config_vars_returns (vars_out : assignments) :
  printable vars_out -> exists errors, check_peft_config_vars vars_out = Ok errors.
Proof.
  intros Hp. destruct (absent required_config vars_out) as [|k ks] eqn:E.
  - destruct (present_value _ _ "r" E) as [r Hr]; [simpl; tauto|].
    destruct (present_value _ _ "P" E) as [P HP]; [simpl; tauto|].
    destruct (present_value _ _ "d_a" E) as [d Hd]; [simpl; tauto|].
    destruct (present_value _ _ "num_trainable_lora" E) as [l Hl]; [simpl; tauto|].
    destruct (present_value _ _ "num_trainable_soft" E) as [s Hs]; [simpl; tauto|].
    destruct (present_value _ _ "num_trainable_adapters" E) as [a Ha]; [simpl; tauto|].
    destruct (present_value _ _ "num_trainable_ia3" E) as [i Hi]; [simpl; tauto|].
    rewrite (check_peft_config_vars_present _ _ _ _ _ _ _ _ Hr HP Hd Hl Hs Ha Hi).
    apply gather_returns.
    repeat (constructor;
            [first [apply int_errors_returns|apply even_errors_returns]; eapply Hp; eassumption|]).
    constructor.
  - unfold check_peft_config_vars. rewrite missing_app, E. simpl. eauto.
Qed.

Lemma check_peft_vars_returns (repr : value -> string) (vars_out : assignments) :
  printable vars_out -> exists errors, check_peft_vars repr vars_out = Ok errors.
Proof.
  intros Hp. destruct (absent required_peft vars_out) as [|k ks] eqn:E.
  - destruct (present_value _ _ "b" E) as [b Hb]; [simpl; tauto|].
    destruct (present_value _ _ "A" E) as [A HA]; [simpl; tauto|].
    destruct (present_value _ _ "B" E) as [B HB]; [simpl; tauto|].
    destruct (present_value _ _ "Wprime" E) as [W HW]; [simpl; tauto|].
    rewrite (check_peft_vars_present repr _ _ _ _ _ Hb HA HB HW).
    destruct (check_vector_returns repr b 4 (Hp _ _ Hb)) as [cb ->].
    destruct (check_matrix_returns repr A 2 1 (Hp _ _ HA)) as [cA ->].
    destruct (check_matrix_returns repr B 1 4 (Hp _ _ HB)) as [cB ->].
    destruct (check_matrix_returns repr W 2 4 (Hp _ _ HW)) as [cW ->].
    simpl. eauto.
  - unfold check_peft_vars. rewrite missing_app, E. simpl. eauto.
Qed.

(** ** Further properties of the checker *)

Section Further.

Variable repr : value -> string.
Variable str_exn : exn -> string.

(** X1.  Whenever reading a file gives a diagnostic, whether the file is
    missing, unreadable, not Python, or holds a value that is not a literal,
    the dictionary that comes with it is empty, the diagnostic is not the empty
    string, and each file check returns that diagnostic alone: the schema is
    not looked at.  For a missing file it is "File not found: <path>", for
    another failure of [open] "Error opening <path>: <e>", and for a failure
    of [ast.parse] "Could not parse file as Python: <e>". *)
Theorem X1_diagnostic_is_the_only_error (path : string) (src : source)
  (out : assignments) (err : string) :
  read_assignments_multiline str_exn path src = (out, Some err) ->
  out = [] /\ err <> "" /\
  check_peft_config str_exn path src = Ok [err] /\
  check_peft repr str_exn path src = Ok [err] /\
  (src = FileNotFound -> err = "File not found: " ++ path) /\
  (forall e, src = OpenError e -> err = "Error opening " ++ path ++ ": " ++ e) /\
  (forall e, src = SyntaxError e -> err = "Could not parse file as Python: " ++ e).
Proof.
  intros H. destruct (read_error str_exn path src out err H) as [Hout Herr].
  split; [assumption|]. split; [now intros ->|].
  split; [now apply (check_peft_config_unread str_exn path src out)|].
  split; [now apply (check_peft_unread str_exn repr path src out)|].
  repeat split; intros; subst src; cbv [read_assignments_multiline] in H;
    now injection H as _ <-.
Qed.

(** X2.  The file checks raise nothing but the [ValueError] of printing an
    integer of more than 4300 digits: no [KeyError] escapes, every lookup
    [vars_out[name]] being reached only when no required name is missing.
    They return a list of messages whenever the file gives a diagnostic, and
    whenever no value of the dictionary read holds such an integer. *)
Theorem X2_file_checks_raise_only_on_long_integers (path : string) (src : source) :
  (forall x, check_peft_config str_exn path src = Raise x -> x = ValueError_digits)
  /\ (forall x, check_peft repr str_exn path src = Raise x -> x = ValueError_digits)
  /\ (forall vars_out,
         read_assignments_multiline str_exn path src = (vars_out, None) ->
         printable vars_out ->
         (exists errors, check_peft_config str_exn path src = Ok errors) /\
         (exists errors, check_peft repr str_exn path src = Ok errors))
  /\ (forall out err,
         read_assignments_multiline str_exn path src = (out, Some err) ->
         check_peft_config str_exn path src = Ok [err] /\
         check_peft repr str_exn path src = Ok [err]).
Proof.
  destruct (read_assignments_multiline str_exn path src) as [out [err|]] eqn:E.
  - pose proof (check_peft_config_unread str_exn path src out err E) as Hc.
    pose proof (check_peft_unread str_exn repr path src out err E) as Hp.
    rewrite Hc, Hp. repeat split; try discriminate.
    + now injection H as _ <-.
    + now injection H as _ <-.
  - rewrite (check_peft_config_read str_exn path src out E).
    rewrite (check_peft_read str_exn repr path src out E).
    split; [apply check_peft_config_vars_raises|].
    split; [apply check_peft_vars_raises|].
    split; [|discriminate].
    intros vars_out [= <-] Hp.
    split; [now apply check_peft_config_vars_returns|now apply check_peft_vars_returns].
Qed.

Lemma int_errors_nil (name : string) (v : value) :
  int_errors name v = Ok [] <-> exists n, int_value v = Some n /\ 0 <= n.
Proof.
  unfold int_errors. destruct (int_value v) as [n|].
  - destruct (Z.ltb_spec n 0); split.
    + destruct (format_int v); discriminate.
    + intros (m & [= <-] & Hm). lia.
    + intros _. now exists n.
    + reflexivity.
  - split; [discriminate|]. now intros (n & [=] & _).
Qed.

Lemma even_errors_nil (name : string) (v : value) (n : Z) :
  int_value v = Some n -> (even_errors name v = Ok [] <-> Z.even n = true).
Proof.
  intros H. unfold even_errors. rewrite H. destruct (Z.even n); split; try congruence.
  destruct (format_int v); discriminate.
Qed.

Lemma passes_int_errors (vars_out : assignments) (name : string) (v : value) :
  dict_get name vars_out = Some v ->
  (passes_int vars_out name <-> int_errors name v = Ok []).
Proof.
  intros Hv. rewrite int_errors_nil. unfold passes_int. split.
  - intros (v' & n & Hv' & Hn & H0). rewrite Hv in Hv'. injection Hv' as <-. now exists n.
  - intros (n & Hn & H0). now exists v, n.
Qed.

Lemma passes_even_int_errors (vars_out : assignments) (name : string) (v : value) :
  dict_get name vars_out = Some v ->
  (passes_even_int vars_out name
   <-> int_errors name v = Ok [] /\ even_errors name v = Ok []).
Proof.
  intros Hv. rewrite int_errors_nil. unfold passes_even_int. split.
  - intros (v' & n & Hv' & Hn & H0 & He). rewrite Hv in Hv'. injection Hv' as <-.
    split; [now exists n|]. now apply (even_errors_nil name v n Hn).
  - intros [(n & Hn & H0) He]. exists v, n. repeat split; try assumption.
    now apply (even_errors_nil name v n Hn).
Qed.

Lemma missing_not_nil (vars_out : assignments) :
  absent required_config vars_out <> [] ->
  check_peft_config_vars vars_out <> Ok [].
Proof.
  intros Habs. unfold check_peft_config_vars. rewrite missing_app, app_nil_l.
  rewrite truthy_list_map.
  destruct (absent required_config vars_out); [contradiction|]. simpl. discriminate.
Qed.

(** X3.  The config schema lets a dictionary through, with no error at all,
    exactly when each of the seven names is bound to an instance of [int] that
    is not negative, even for [r], [P] and [d_a]; an instance of [int] is an
    integer or a boolean, [False] counting as 0 and [True] as 1. *)
Theorem X3_config_accepted_iff (vars_out : assignments) :
  check_peft_config_vars vars_out = Ok []
  <-> passes_even_int vars_out "r" /\ passes_even_int vars_out "P"
      /\ passes_even_int vars_out "d_a"
      /\ passes_int vars_out "num_trainable_lora"
      /\ passes_int vars_out "num_trainable_soft"
      /\ passes_int vars_out "num_trainable_adapters"
      /\ passes_int vars_out "num_trainable_ia3".
Proof.
  split.
  - intros H.
    destruct (absent required_config vars_out) as [|k ks] eqn:E;
      [|exfalso; apply (missing_not_nil vars_out); [now rewrite E|assumption]].
    destruct (present_value _ _ "r" E) as [r Hr]; [simpl; tauto|].
    destruct (present_value _ _ "P" E) as [P HP]; [simpl; tauto|].
    destruct (present_value _ _ "d_a" E) as [d Hd]; [simpl; tauto|].
    destruct (present_value _ _ "num_trainable_lora" E) as [l Hl]; [simpl; tauto|].
    destruct (present_value _ _ "num_trainable_soft" E) as [s Hs]; [simpl; tauto|].
    destruct (present_value _ _ "num_trainable_adapters" E) as [a Ha]; [simpl; tauto|].
    destruct (present_value _ _ "num_trainable_ia3" E) as [i Hi]; [simpl; tauto|].
    rewrite (check_peft_config_vars_present _ _ _ _ _ _ _ _ Hr HP Hd Hl Hs Ha Hi) in H.
    apply gather_nil in H.
    repeat match goal with
           | H : Forall _ (_ :: _) |- _ => inversion H; clear H; subst
           end.
    rewrite (passes_even_int_errors _ _ _ Hr), (passes_even_int_errors _ _ _ HP),
      (passes_even_int_errors _ _ _ Hd), (passes_int_errors _ _ _ Hl),
      (passes_int_errors _ _ _ Hs), (passes_int_errors _ _ _ Ha),
      (passes_int_errors _ _ _ Hi).
    tauto.
  - intros (Hr & HP & Hd & Hl & Hs & Ha & Hi).
    destruct Hr as (r & nr & Hr & Hr'). destruct HP as (P & nP & HP & HP').
    destruct Hd as (d & nd & Hd & Hd'). destruct Hl as (l & nl' & Hl & Hl').
    destruct Hs as (s & ns & Hs & Hs'). destruct Ha as (a & na & Ha & Ha').
    destruct Hi as (i & ni & Hi & Hi').
    rewrite (check_peft_config_vars_present _ _ _ _ _ _ _ _ Hr HP Hd Hl Hs Ha Hi).
    assert (Er : int_errors "r" r = Ok [] /\ even_errors "r" r = Ok []).
    { apply (passes_even_int_errors vars_out "r" r Hr). now exists r, nr. }
    assert (EP : int_errors "P" P = Ok [] /\ even_errors "P" P = Ok []).
    { apply (passes_even_int_errors vars_out "P" P HP). now exists P, nP. }
    assert (Ed : int_errors "d_a" d = Ok [] /\ even_errors "d_a" d = Ok []).
    { apply (passes_even_int_errors vars_out "d_a" d Hd). now exists d, nd. }
    assert (El : int_errors "num_trainable_lora" l = Ok []).
    { apply (passes_int_errors vars_out _ l Hl). now exists l, nl'. }
    assert (Es : int_errors "num_trainable_soft" s = Ok []).
    { apply (passes_int_errors vars_out _ s Hs). now exists s, ns. }
    assert (Ea : int_errors "num_trainable_adapters" a = Ok []).
    { apply (passes_int_errors vars_out _ a Ha). now exists a, na. }
    assert (Ei : int_errors "num_trainable_ia3" i = Ok []).
    { apply (passes_int_errors vars_out _ i Hi). now exists i, ni. }
    destruct Er as [-> ->], EP as [-> ->], Ed as [-> ->].
    now rewrite El, Es, Ea, Ei.
Qed.

(** X4.  With the seven config variables present, the check runs the two
    passes in order: first the type or sign error of [r], [P], [d_a],
    [num_trainable_lora], [num_trainable_soft], [num_trainable_adapters],
    [num_trainable_ia3], in this order whatever the order of the file, then
    the parity errors of [r], [P], [d_a]; the first message that cannot be
    printed ends the run with [ValueError].  A run that returns gives at most
    ten errors, and the run returns when none of the seven values holds an
    integer of more than 4300 digits. *)
Theorem X4_config_errors_in_pass_order (vars_out : assignments)
  (r P d_a lora soft adapters ia3 : value) :
  dict_get "r" vars_out = Some r ->
  dict_get "P" vars_out = Some P ->
  dict_get "d_a" vars_out = Some d_a ->
  dict_get "num_trainable_lora" vars_out = Some lora ->
  dict_get "num_trainable_soft" vars_out = Some soft ->
  dict_get "num_trainable_adapters" vars_out = Some adapters ->
  dict_get "num_trainable_ia3" vars_out = Some ia3 ->
  check_peft_config_vars vars_out
  = gather [int_errors "r" r; int_errors "P" P; int_errors "d_a" d_a;
            int_errors "num_trainable_lora" lora; int_errors "num_trainable_soft" soft;
            int_errors "num_trainable_adapters" adapters;
            int_errors "num_trainable_ia3" ia3;
            even_errors "r" r; even_errors "P" P; even_errors "d_a" d_a]
  /\ (forall errors,
         check_peft_config_vars vars_out = Ok errors -> (List.length errors <= 10)%nat)
  /\ (Forall (fun v => holds_long_int v = false) [r; P; d_a; lora; soft; adapters; ia3] ->
      exists errors, check_peft_config_vars vars_out = Ok errors).
Proof.
  intros Hr HP Hd Hl Hs Ha Hi.
  pose proof (check_peft_config_vars_present _ _ _ _ _ _ _ _ Hr HP Hd Hl Hs Ha Hi) as H.
  split; [exact H|]. rewrite H. split.
  - intros errors He.
    apply gather_length in He; [exact He|].
    repeat (constructor; [first [apply int_errors_length|apply even_errors_length]|]).
    constructor.
  - intros Hp.
    repeat match goal with
           | H : Forall _ (_ :: _) |- _ => inversion H; clear H; subst
           end.
    apply gather_returns.
    repeat (constructor;
            [first [now apply int_errors_returns|now apply even_errors_returns]|]).
    constructor.
Qed.

Lemma absent_agree (required : list string) (d1 d2 : assignments) :
  agree_on required d1 d2 -> absent required d1 = absent required d2.
Proof.
  unfold agree_on, absent. intros H. apply filter_ext_in. intros k Hk.
  unfold dict_in. now rewrite (H k Hk).
Qed.

(** X5.  The schema checks look at nothing but the values bound to the
    required names: two dictionaries that bind the seven config names (the
    four data names) alike get the same answer, whatever the order of their
    entries and whatever else they hold. *)
Theorem X5_checks_depend_on_required_names_only (d1 d2 : assignments) :
  (agree_on required_config d1 d2 -> check_peft_config_vars d1 = check_peft_config_vars d2)
  /\ (agree_on required_peft d1 d2 -> check_peft_vars repr d1 = check_peft_vars repr d2).
Proof.
  split; intros H; pose proof (absent_agree _ _ _ H) as Habs.
  - destruct (absent required_config d1) as [|k ks] eqn:E.
    + symmetry in Habs.
      destruct (present_value _ _ "r" E) as [r Hr]; [simpl; tauto|].
      destruct (present_value _ _ "P" E) as [P HP]; [simpl; tauto|].
      destruct (present_value _ _ "d_a" E) as [d Hd]; [simpl; tauto|].
      destruct (present_value _ _ "num_trainable_lora" E) as [l Hl]; [simpl; tauto|].
      destruct (present_value _ _ "num_trainable_soft" E) as [s Hs]; [simpl; tauto|].
      destruct (present_value _ _ "num_trainable_adapters" E) as [a Ha]; [simpl; tauto|].
      destruct (present_value _ _ "num_trainable_ia3" E) as [i Hi]; [simpl; tauto|].
      rewrite (check_peft_config_vars_present d1 _ _ _ _ _ _ _ Hr HP Hd Hl Hs Ha Hi).
      rewrite (H "r") in Hr by (simpl; tauto). rewrite (H "P") in HP by (simpl; tauto).
      rewrite (H "d_a") in Hd by (simpl; tauto).
      rewrite (H "num_trainable_lora") in Hl by (simpl; tauto).
      rewrite (H "num_trainable_soft") in Hs by (simpl; tauto).
      rewrite (H "num_trainable_adapters") in Ha by (simpl; tauto).
      rewrite (H "num_trainable_ia3") in Hi by (simpl; tauto).
      now rewrite (check_peft_config_vars_present d2 _ _ _ _ _ _ _ Hr HP Hd Hl Hs Ha Hi).
    + unfold check_peft_config_vars. rewrite !missing_app, <- Habs, E. reflexivity.
  - destruct (absent required_peft d1) as [|k ks] eqn:E.
    + symmetry in Habs.
      destruct (present_value _ _ "b" E) as [b Hb]; [simpl; tauto|].
      destruct (present_value _ _ "A" E) as [A HA]; [simpl; tauto|].
      destruct (present_value _ _ "B" E) as [B HB]; [simpl; tauto|].
      destruct (present_value _ _ "Wprime" E) as [W HW]; [simpl; tauto|].
      rewrite (check_peft_vars_present repr d1 _ _ _ _ Hb HA HB HW).
      rewrite (H "b") in Hb by (simpl; tauto). rewrite (H "A") in HA by (simpl; tauto).
      rewrite (H "B") in HB by (simpl; tauto).
      rewrite (H "Wprime") in HW by (simpl; tauto).
      now rewrite (check_peft_vars_present repr d2 _ _ _ _ Hb HA HB HW).
    + unfold check_peft_vars. rewrite !missing_app, <- Habs, E. reflexivity.
Qed.

End Further.

Section FurtherShapes.

Variable repr : value -> string.
Variable str_exn : exn -> string.





Lemma check_vector_from_said (i : nat) (vec : list value) (ok : bool) :
  check_vector_from repr i vec = Ok (ok, "") -> ok = true.
Proof.
  revert i. induction vec as [|el vec IH]; intros i; simpl; [now intros [= <-]|].
  destruct (is_numeric el); simpl; [apply IH|].
  destruct (repr_of repr el); simpl; discriminate.
Qed.

Lemma check_row_from_said (r_idx c_idx : nat) (row : list value) :
  check_row_from repr r_idx c_idx row <> Ok (Some "").
Proof.
  revert c_idx. induction row as [|el row IH]; intros c_idx; simpl; [discriminate|].
  destruct (is_numeric el); simpl; [apply IH|].
  destruct (repr_of repr el); simpl; discriminate.
Qed.

Lemma check_matrix_from_said (cols : Z) (r_idx : nat) (mat : list value) (ok : bool) :
  check_matrix_from repr cols r_idx mat = Ok (ok, "") -> ok = true.
Proof.
  revert r_idx. induction mat as [|row mat IH]; intros r_idx; simpl; [now intros [= <-]|].
  destruct row as [| | | | | | | |els| | |]; try discriminate.
  destruct (negb (Z.of_nat (List.length els) =? cols)); [discriminate|].
  destruct (check_row_from repr r_idx 0 els) as [[msg|]|x] eqn:E; simpl;
    [|apply IH|discriminate].
  intros [= <- ->]. now apply check_row_from_said in E.
Qed.

(** X7.  The flag and the message of a check go together: whenever
    [check_vector] or [check_matrix] returns, the flag is [True] exactly when
    the message is empty, so a failure always says something. *)
Theorem X7_flag_and_message_agree (v : value) (n rows cols : Z) :
  (forall ok msg, check_vector repr v n = Ok (ok, msg) -> (ok = true <-> msg = ""))
  /\ (forall ok msg,
         check_matrix repr v rows cols = Ok (ok, msg) -> (ok = true <-> msg = "")).
Proof.
  split; intros ok msg H; split.
  - intros ->. now apply check_vector_flag in H.
  - intros ->. unfold check_vector in H.
    destruct v as [| | | | | | | |items| | |]; try discriminate.
    destruct (negb (Z.of_nat (List.length items) =? n)); [discriminate|].
    now apply check_vector_from_said in H.
  - intros ->. now apply check_matrix_flag in H.
  - intros ->. unfold check_matrix in H.
    destruct v as [| | | | | | | |items| | |]; try discriminate.
    destruct (negb (Z.of_nat (List.length items) =? rows)); [discriminate|].
    now apply check_matrix_from_said in H.
Qed.


(** X9.  Parsing goes through a file from top to bottom: the statements
    [pre ++ post] are read as [pre] and then [post] from the dictionary [pre]
    left, and once [pre] has failed nothing that follows changes the
    diagnostic. *)
Theorem X9_parsing_composes (pre post : list stmt) (out : assignments) :
  read_body str_exn (pre ++ post) out
  = match read_body str_exn pre out with
    | (out', None) => read_body str_exn post out'
    | (out', Some err) => (out', Some err)
    end.
Proof.
  revert out. induction pre as [|s pre IH]; intros out; [reflexivity|].
  rewrite <- app_comm_cons, !read_body_cons.
  destruct (name_assignment s) as [[n e]|]; [|apply IH].
  destruct (literal_eval e); [apply IH|reflexivity].
Qed.

Lemma number_literal_numeric (e : expr) :
  number_literal e = true -> exists v, literal_eval e = Ok v /\ is_numeric v = true.
Proof.
  destruct e as [c| | | | | | | |op operand| | | |]; try discriminate.
  - destruct c; try discriminate; intros _; eexists; split; reflexivity.
  - destruct op; try discriminate;
      (destruct operand as [c| | | | | | | | | | | |]; try discriminate;
       destruct c; try discriminate; intros _; eexists; split; reflexivity).
Qed.

Lemma number_literals_numeric (elts : list expr) :
  forallb number_literal elts = true ->
  exists vs,
    collect (map _convert elts) = Ok vs /\ List.length vs = List.length elts /\
    forallb is_numeric vs = true.
Proof.
  induction elts as [|e elts IH]; simpl; intros H.
  - now exists [].
  - apply andb_prop in H as [He Hs].
    destruct (number_literal_numeric e He) as (v & Hv & Hn).
    destruct (IH Hs) as (vs & Hvs & Hl & Hns).
    unfold literal_eval in Hv. rewrite Hv, Hvs. simpl.
    exists (v :: vs). simpl. now rewrite Hl, Hn, Hns.
Qed.

Lemma vector_literal_numeric (e : expr) (n : nat) :
  vector_literal e n -> exists v, literal_eval e = Ok v /\ numeric_list v (Z.of_nat n).
Proof.
  intros (elts & -> & Hl & Hn).
  destruct (number_literals_numeric elts Hn) as (vs & Hvs & Hlen & Hnum).
  exists (VList vs). rewrite literal_eval_List, Hvs. split; [reflexivity|].
  apply numeric_list_forallb. exists vs. repeat split; [congruence|assumption].
Qed.

Lemma matrix_literal_numeric (e : expr) (rows cols : nat) :
  matrix_literal e rows cols ->
  exists v, literal_eval e = Ok v /\ numeric_matrix v (Z.of_nat rows) (Z.of_nat cols).
Proof.
  intros (elts & -> & Hl & Hrows). subst rows.
  assert (H : exists vs,
             collect (map _convert elts) = Ok vs /\ List.length vs = List.length elts /\
             Forall (fun row => numeric_list row (Z.of_nat cols)) vs).
  { induction Hrows as [|row elts Hrow _ IH]; [now exists []|].
    destruct (vector_literal_numeric row cols Hrow) as (v & Hv & Hn).
    destruct IH as (vs & Hvs & Hlen & Hall).
    unfold literal_eval in Hv. simpl. rewrite Hv, Hvs. simpl.
    exists (v :: vs). simpl. rewrite Hlen. repeat split. now constructor. }
  destruct H as (vs & Hvs & Hlen & Hall).
  exists (VList vs). rewrite literal_eval_List, Hvs. split; [reflexivity|].
  exists vs. repeat split; [congruence|assumption].
Qed.

(** X10.  A data file passes from end to end when its [NAME = value]
    statements are [b], [A], [B] and [Wprime], bound to a list of 4 numbers
    and to lists of 2x1, 1x4 and 2x4 numbers, each number an [int] or a
    [float] constant with or without a sign; statements of other kinds may
    stand between them. *)
Theorem X10_well_formed_data_file_passes (path : string) (body : list stmt)
  (b A B W : expr) :
  bindings body = [("b", b); ("A", A); ("B", B); ("Wprime", W)] ->
  vector_literal b 4 ->
  matrix_literal A 2 1 ->
  matrix_literal B 1 4 ->
  matrix_literal W 2 4 ->
  check_peft repr str_exn path (Parsed body) = Ok [].
Proof.
  intros Hbody Hb HA HB HW.
  apply vector_literal_numeric in Hb as (vb & Eb & Nb).
  apply matrix_literal_numeric in HA as (vA & EA & NA).
  apply matrix_literal_numeric in HB as (vB & EB & NB).
  apply matrix_literal_numeric in HW as (vW & EW & NW).
  assert (Hread : read_assignments_multiline str_exn path (Parsed body)
                  = ([("b", vb); ("A", vA); ("B", vB); ("Wprime", vW)], None)).
  { simpl.
    rewrite (read_body_ok str_exn body [("b", vb); ("A", vA); ("B", vB); ("Wprime", vW)] []);
      [reflexivity|].
    rewrite Hbody. repeat constructor; assumption. }
  rewrite (check_peft_read str_exn repr path _ _ Hread).
  rewrite (check_peft_vars_present repr [("b", vb); ("A", vA); ("B", vB); ("Wprime", vW)]
             vb vA vB vW eq_refl eq_refl eq_refl eq_refl).
  apply (check_vector_true repr) in Nb. apply (check_matrix_true repr) in NA, NB, NW.
  simpl Z.of_nat in Nb, NA, NB, NW. now rewrite Nb, NA, NB, NW.
Qed.


End FurtherShapes.

(** ** Paths *)

Lemma slice_from_app (a b : string) : path.slice_from (String.length a) (a ++ b) = b.
Proof. induction a as [|c a IH]; simpl; [now destruct b|assumption]. Qed.

Lemma rfind_sep_bounds (p : string) : -1 <= path.rfind_sep p < Z.of_nat (String.length p).
Proof.
  induction p as [|c p IH]; simpl; [lia|].
  destruct (Z.eqb_spec (path.rfind_sep p) (-1)); [destruct (Ascii.eqb c "/")|]; lia.
Qed.

Lemma rfind_sep_app (a b : string) :
  path.rfind_sep (a ++ b)
  = if path.rfind_sep b =? -1 then path.rfind_sep a
    else Z.of_nat (String.length a) + path.rfind_sep b.
Proof.
  induction a as [|c a IH]; simpl String.length; simpl append.
  - simpl. destruct (Z.eqb_spec (path.rfind_sep b) (-1)); lia.
  - simpl path.rfind_sep. rewrite IH.
    pose proof (rfind_sep_bounds b).
    destruct (Z.eqb_spec (path.rfind_sep b) (-1)); [reflexivity|].
    destruct (Z.eqb_spec (Z.of_nat (String.length a) + path.rfind_sep b) (-1)); lia.
Qed.

Lemma endswith_sep_rfind (a : string) :
  path.endswith_sep a = true -> path.rfind_sep a = Z.of_nat (String.length a) - 1.
Proof.
  induction a as [|c a IH]; [discriminate|].
  destruct a as [|c' a'].
  - simpl. now intros ->.
  - intros H. change (path.endswith_sep (String c' a') = true) in H. specialize (IH H).
    change (path.rfind_sep (String c (String c' a')))
      with (let i := path.rfind_sep (String c' a') in
            if i =? -1 then (if Ascii.eqb c "/" then 0 else -1) else i + 1).
    cbv zeta. rewrite IH.
    change (String.length (String c (String c' a')))
      with (S (String.length (String c' a'))).
    set (n := String.length (String c' a')) in *.
    assert (0 < Z.of_nat n) by (subst n; simpl; lia).
    destruct (Z.eqb_spec (Z.of_nat n - 1) (-1)); lia.
Qed.

Lemma startswith_sep_rfind (b : string) : path.rfind_sep b = -1 -> path.startswith_sep b = false.
Proof.
  destruct b as [|c b]; [reflexivity|]. simpl.
  pose proof (rfind_sep_bounds b).
  destruct (Z.eqb_spec (path.rfind_sep b) (-1)); [|lia].
  now destruct (Ascii.eqb c "/").
Qed.

(** The name of a file is the base name of its path in any folder. *)
Lemma append_sep_assoc (folder name : string) :
  folder ++ "/" ++ name = (folder ++ "/") ++ name.
Proof.
  induction folder as [|c folder IH]; [reflexivity|]. simpl. f_equal. exact IH.
Qed.

Lemma length_append_sep (folder : string) :
  String.length (folder ++ "/") = S (String.length folder).
Proof. induction folder; simpl; congruence. Qed.

Lemma basename_join (folder name : string) :
  path.rfind_sep name = -1 -> path.basename (path.join folder name) = name.
Proof.
  intros Hn. unfold path.join. rewrite (startswith_sep_rfind name Hn), orb_false_l.
  destruct (String.eqb_spec folder "") as [->|Hf].
  - unfold path.basename. now rewrite Hn.
  - unfold path.basename. destruct (path.endswith_sep folder) eqn:E.
    + rewrite rfind_sep_app, Hn. simpl Z.eqb. cbv iota.
      rewrite (endswith_sep_rfind folder E).
      replace (Z.of_nat (String.length folder) - 1 + 1) with (Z.of_nat (String.length folder))
        by lia.
      rewrite Nat2Z.id. apply slice_from_app.
    + rewrite append_sep_assoc, rfind_sep_app, Hn. simpl Z.eqb. cbv iota.
      assert (Hs : path.rfind_sep (folder ++ "/") = Z.of_nat (String.length (folder ++ "/")) - 1).
      { apply endswith_sep_rfind. clear. induction folder as [|c [|c' f] IH]; auto. }
      rewrite Hs.
      replace (Z.of_nat (String.length (folder ++ "/")) - 1 + 1)
        with (Z.of_nat (String.length (folder ++ "/"))) by lia.
      rewrite Nat2Z.id. apply slice_from_app.
Qed.

Lemma join_inj (folder a b : string) :
  path.rfind_sep a = -1 -> path.rfind_sep b = -1 ->
  path.join folder a = path.join folder b -> a = b.
Proof.
  intros Ha Hb H. rewrite <- (basename_join folder a Ha), <- (basename_join folder b Hb).
  now rewrite H.
Qed.

(** ** [main] *)

Lemma print_errors_app (out errs : list string) :
  print_errors out errs = app out (map (fun e => "   - " ++ e) errs).
Proof.
  unfold print_errors. revert out.
  induction errs as [|e errs IH]; intros out; simpl; [now rewrite app_nil_r|].
  rewrite IH. unfold print, append. now rewrite <- app_assoc.
Qed.

Lemma find_config_candidates (fs : files) (folder : string) :
  find_config fs folder candidates_cfg
  = if exists_ fs (path.join folder "peft config.txt")
    then Some (path.join folder "peft config.txt")
    else if exists_ fs (path.join folder "peft_config.txt")
         then Some (path.join folder "peft_config.txt")
         else None.
Proof. reflexivity. Qed.

Section MainFacts.

Variable repr : value -> string.
Variable str_exn : exn -> string.

Lemma main_reports (fs : files) (folder : string) :
  main repr str_exn fs folder
  = (cfg <- config_report str_exn fs folder ;;
     peft <- peft_report repr str_exn fs folder ;;
     Ok (app (fst cfg) (app (fst peft) [fst (summary (snd cfg || snd peft))]),
         snd (summary (snd cfg || snd peft)))).
Proof.
  unfold main, config_report, peft_report.
  destruct (find_config fs folder candidates_cfg) as [p|].
  - destruct (check_peft_config str_exn p (open_ fs p)) as [cerrs|x]; [|reflexivity].
    simpl bind.
    destruct (exists_ fs (path.join folder "peft.txt")) eqn:Ex; simpl negb; cbv iota.
    + destruct (check_peft repr str_exn (path.join folder "peft.txt")
                  (open_ fs (path.join folder "peft.txt"))) as [perrs|x].
      * destruct cerrs as [|c cs], perrs as [|q qs]; simpl;
          rewrite ?print_errors_app; unfold print, append; simpl;
          rewrite <- ?app_assoc; reflexivity.
      * destruct cerrs as [|c cs]; reflexivity.
    + destruct cerrs as [|c cs]; simpl;
        rewrite ?print_errors_app; unfold print, append; simpl;
        rewrite <- ?app_assoc; simpl; rewrite ?orb_true_r; reflexivity.
  - simpl bind.
    destruct (exists_ fs (path.join folder "peft.txt")) eqn:Ex; simpl negb; cbv iota.
    + destruct (check_peft repr str_exn (path.join folder "peft.txt")
                  (open_ fs (path.join folder "peft.txt"))) as [perrs|x]; [|reflexivity].
      destruct perrs as [|q qs]; simpl;
        rewrite ?print_errors_app; unfold print, append; simpl; reflexivity.
    + reflexivity.
Qed.

Lemma file_checks_raise (path : string) (src : source) (x : exn) :
  (check_peft_config str_exn path src = Raise x -> x = ValueError_digits)
  /\ (check_peft repr str_exn path src = Raise x -> x = ValueError_digits).
Proof.
  destruct (read_assignments_multiline str_exn path src) as [out [err|]] eqn:E.
  - rewrite (check_peft_config_unread str_exn path src out err E).
    rewrite (check_peft_unread str_exn repr path src out err E).
    split; discriminate.
  - rewrite (check_peft_config_read str_exn path src out E).
    rewrite (check_peft_read str_exn repr path src out E).
    split; [apply check_peft_config_vars_raises|apply check_peft_vars_raises].
Qed.

Lemma config_report_raises (fs : files) (folder : string) (x : exn) :
  config_report str_exn fs folder = Raise x ->
  x = ValueError_digits /\
  exists p, find_config fs folder candidates_cfg = Some p /\
            check_peft_config str_exn p (open_ fs p) = Raise x.
Proof.
  unfold config_report.
  destruct (find_config fs folder candidates_cfg) as [p|]; [|discriminate].
  destruct (check_peft_config str_exn p (open_ fs p)) as [errs|y] eqn:E; [discriminate|].
  intros [= <-]. split; [exact (proj1 (file_checks_raise p (open_ fs p) y) E)|now exists p].
Qed.

Lemma peft_report_raises (fs : files) (folder : string) (x : exn) :
  peft_report repr str_exn fs folder = Raise x ->
  x = ValueError_digits /\
  exists_ fs (path.join folder "peft.txt") = true /\
  check_peft repr str_exn (path.join folder "peft.txt")
    (open_ fs (path.join folder "peft.txt")) = Raise x.
Proof.
  unfold peft_report.
  destruct (exists_ fs (path.join folder "peft.txt")); [|discriminate].
  destruct (check_peft repr str_exn (path.join folder "peft.txt")
              (open_ fs (path.join folder "peft.txt"))) as [errs|y] eqn:E; [discriminate|].
  intros [= <-]. split; [|now split].
  exact (proj2 (file_checks_raise (path.join folder "peft.txt")
                  (open_ fs (path.join folder "peft.txt")) y) E).
Qed.

Lemma truthy_list_nil {A : Type} (l : list A) : truthy_list l = false -> l = [].
Proof. now destruct l. Qed.

Lemma config_report_clean (fs : files) (folder : string) :
  (exists lines, config_report str_exn fs folder = Ok (lines, false))
  <-> exists p, find_config fs folder candidates_cfg = Some p /\
                check_peft_config str_exn p (open_ fs p) = Ok [].
Proof.
  unfold config_report. split.
  - intros [lines H].
    destruct (find_config fs folder candidates_cfg) as [p|]; [|discriminate H].
    destruct (check_peft_config str_exn p (open_ fs p)) as [errs|y] eqn:E;
      [|discriminate H].
    injection H as _ H. apply truthy_list_nil in H. subst errs. now exists p.
  - intros (p & -> & ->). eexists. reflexivity.
Qed.

Lemma peft_report_clean (fs : files) (folder : string) :
  (exists lines, peft_report repr str_exn fs folder = Ok (lines, false))
  <-> exists_ fs (path.join folder "peft.txt") = true /\
      check_peft repr str_exn (path.join folder "peft.txt")
        (open_ fs (path.join folder "peft.txt")) = Ok [].
Proof.
  unfold peft_report. split.
  - intros [lines H].
    destruct (exists_ fs (path.join folder "peft.txt")); [|discriminate H].
    destruct (check_peft repr str_exn (path.join folder "peft.txt")
                (open_ fs (path.join folder "peft.txt"))) as [errs|y] eqn:E;
      [|discriminate H].
    injection H as _ H. apply truthy_list_nil in H. now subst errs.
  - intros (-> & ->). eexists. reflexivity.
Qed.

End MainFacts.

Section MainClaims.

Variable repr : value -> string.
Variable str_exn : exn -> string.

(** X11.  [main] prints the report of the config file, then the report of
    [peft.txt], then one closing line, and the status it returns is 1 when a
    report counts as an error and 0 otherwise.  The report of a file that is
    there is one OK line when its check returns no error, and else a heading
    followed by one indented line per error, in the order of the check; the
    report of a file that is not there is one "File not found" line, which
    counts as an error.  [peft.txt] is checked whatever the report of the
    config file says.  [main] catches nothing: when the check of the config
    file raises, [main] raises the same before [peft.txt] is looked at, and
    when the check of [peft.txt] raises, [main] raises the same; what is
    raised is the [ValueError] of printing an integer of more than 4300
    digits, and nothing else. *)
Theorem X11_main_report (fs : files) (folder : string) :
  main repr str_exn fs folder
  = (cfg <- config_report str_exn fs folder ;;
     peft <- peft_report repr str_exn fs folder ;;
     Ok (app (fst cfg) (app (fst peft) [fst (summary (snd cfg || snd peft))]),
         snd (summary (snd cfg || snd peft))))
  /\ (forall x, config_report str_exn fs folder = Raise x ->
                main repr str_exn fs folder = Raise x)
  /\ (forall cfg x,
         config_report str_exn fs folder = Ok cfg ->
         peft_report repr str_exn fs folder = Raise x ->
         main repr str_exn fs folder = Raise x)
  /\ (forall x, main repr str_exn fs folder = Raise x -> x = ValueError_digits).
Proof.
  rewrite main_reports. split; [reflexivity|].
  split; [now intros x ->|]. split; [now intros cfg x -> ->|].
  intros x.
  destruct (config_report str_exn fs folder) as [cfg|y] eqn:Ec; simpl.
  - destruct (peft_report repr str_exn fs folder) as [peft|y] eqn:Ep; simpl; [discriminate|].
    intros [= <-]. now apply (peft_report_raises repr str_exn fs folder y).
  - intros [= <-]. now apply (config_report_raises repr str_exn fs folder y).
Qed.

(** X12.  When [main] returns, its status is 0 or 1 and the closing line says
    which.  It returns 0 exactly when a config file is found and its check
    returns no error, and [peft.txt] is there and its check returns no
    error. *)
Theorem X12_main_status (fs : files) (folder : string) :
  (forall out status,
      main repr str_exn fs folder = Ok (out, status) ->
      (status = 0 \/ status = 1) /\
      (status = 0 -> last out "" = nl ++ "All files are correctly formatted ✅") /\
      (status = 1 -> last out "" = nl ++ "Formatting issues detected ❗"))
  /\ ((exists out, main repr str_exn fs folder = Ok (out, 0))
      <-> (exists p,
              find_config fs folder candidates_cfg = Some p /\
              check_peft_config str_exn p (open_ fs p) = Ok []) /\
          exists_ fs (path.join folder "peft.txt") = true /\
          check_peft repr str_exn (path.join folder "peft.txt")
            (open_ fs (path.join folder "peft.txt"))
          = Ok []).
Proof.
  rewrite main_reports. split.
  - intros out status.
    destruct (config_report str_exn fs folder) as [cfg|y]; simpl; [|discriminate].
    destruct (peft_report repr str_exn fs folder) as [peft|y]; simpl; [|discriminate].
    intros [= <- <-]. rewrite !app_assoc, last_last.
    destruct (snd cfg || snd peft); simpl; repeat split; auto; discriminate.
  - rewrite <- config_report_clean, <- (peft_report_clean repr str_exn). split.
    + intros [out H].
      destruct (config_report str_exn fs folder) as [[cl cb]|y]; simpl in H; [|discriminate H].
      destruct (peft_report repr str_exn fs folder) as [[pl pb]|y]; simpl in H;
        [|discriminate H].
      destruct cb, pb; simpl in H; try discriminate. split; eexists; reflexivity.
    + intros [[cl ->] [pl ->]]. simpl. eexists. reflexivity.
Qed.

Lemma candidates_differ (folder : string) :
  path.join folder "peft config.txt" <> path.join folder "peft_config.txt"
  /\ path.join folder "peft.txt" <> path.join folder "peft_config.txt".
Proof.
  split; intros H; apply join_inj in H; try reflexivity; discriminate H.
Qed.

(** X13.  The first candidate wins: when [peft config.txt] is in the folder,
    [main] never looks at [peft_config.txt]; whether that file is there, and
    what it holds, changes neither the lines printed nor the status. *)
Theorem X13_second_candidate_not_consulted (fs fs' : files) (folder : string) :
  exists_ fs (path.join folder "peft config.txt") = true ->
  (forall p, p <> path.join folder "peft_config.txt" -> fs' p = fs p) ->
  main repr str_exn fs' folder = main repr str_exn fs folder.
Proof.
  intros Hex Hsame. destruct (candidates_differ folder) as [H0 H2].
  assert (F : find_config fs folder candidates_cfg = Some (path.join folder "peft config.txt")).
  { rewrite find_config_candidates. now rewrite Hex. }
  assert (F' : find_config fs' folder candidates_cfg = Some (path.join folder "peft config.txt")).
  { rewrite find_config_candidates. unfold exists_ in *. rewrite (Hsame _ H0).
    now rewrite Hex. }
  unfold main. rewrite F, F'. unfold exists_, open_.
  now rewrite (Hsame _ H0), (Hsame _ H2).
Qed.

(** X14.  The config file [main] checks is the first candidate that is there,
    [peft config.txt] before [peft_config.txt], and the name under which it is
    reported is the candidate's own, whatever the folder. *)
Theorem X14_config_file_found (fs : files) (folder p : string) :
  find_config fs folder candidates_cfg = Some p ->
  exists_ fs p = true /\
  ((p = path.join folder "peft config.txt" /\ path.basename p = "peft config.txt")
   \/ (p = path.join folder "peft_config.txt" /\ path.basename p = "peft_config.txt" /\
       exists_ fs (path.join folder "peft config.txt") = false)).
Proof.
  rewrite find_config_candidates.
  destruct (exists_ fs (path.join folder "peft config.txt")) eqn:E0.
  - intros [= <-]. split; [assumption|]. left. split; [reflexivity|].
    now apply basename_join.
  - destruct (exists_ fs (path.join folder "peft_config.txt")) eqn:E1; [|discriminate].
    intros [= <-]. split; [assumption|]. right. split; [reflexivity|].
    split; [now apply basename_join|reflexivity].
Qed.

(** X15.  Joining a folder and a file name, then taking the base name, gives
    the file name back, for every name without a separator and every folder,
    empty or not, with or without a trailing separator. *)
Theorem X15_basename_of_join (folder name : string) :
  path.rfind_sep name = -1 -> path.basename (path.join folder name) = name.
Proof. apply basename_join. Qed.


End MainClaims.

(** ** The checker on examples *)

Import Sample.

Example config_example_passes :
  check_peft_config str_exn "peft_config.txt" (Parsed config_example) = Ok [].
Proof. reflexivity. Qed.

Example peft_example_passes :
  check_peft repr str_exn "peft.txt" (Parsed peft_example) = Ok [].
Proof. vm_compute. reflexivity. Qed.

Example missing_file :
  check_peft repr str_exn "peft.txt" FileNotFound = Ok ["File not found: peft.txt"].
Proof. reflexivity. Qed.

Example r_is_one_plus_one :
  check_peft_config str_exn "peft_config.txt"
    (Parsed (Assign [Name "r"] (BinOp (num 1) Add (num 1)) :: tl config_example))
  = Ok ["Could not parse value for r: malformed node or string"].
Proof. reflexivity. Qed.

Example r_is_minus_three_and_a_half :
  check_peft_config str_exn "peft_config.txt"
    (Parsed (Assign [Name "r"] (UnaryOp USub (Constant (VFloat 3.5))) :: tl config_example))
  = Ok ["r must be an integer (got float)."].
Proof. vm_compute. reflexivity. Qed.

Example r_is_true :
  check_peft_config str_exn "peft_config.txt"
    (Parsed (Assign [Name "r"] (Constant (VBool true)) :: tl config_example))
  = Ok ["r must be even (got True)."].
Proof. reflexivity. Qed.

Example a_is_two_by_two :
  check_matrix repr (VList [VList [VInt 1; VInt 2]; VList [VInt 3; VInt 4]]) 2 1
  = Ok (false, "Row 0 must be a list with 1 elements.").
Proof. reflexivity. Qed.

Example b_is_a_tuple :
  check_vector repr (VTuple [VInt 1; VInt 2; VInt 3; VInt 4]) 4
  = Ok (false, "Expected a list of length 4.").
Proof. reflexivity. Qed.

Example empty_set_call :
  literal_eval (Call (Name "set") [] []) = Ok (VSet []).
Proof. reflexivity. Qed.

(** ** Instances of the statements *)

(** C1: a 2x4 [Wprime] with [True] in it is accepted as it stands, by
    [check_matrix] and by [check_peft]. *)
Lemma C1_boolean_element_accepted :
  is_numeric (VBool true) = true
  /\ check_matrix repr
       (VList [VList [VInt 1; VInt 2; VInt 3; VBool true];
               VList [VInt 5; VInt 6; VInt 7; VInt 8]]) 2 4
     = Ok (true, "")
  /\ check_peft repr str_exn "peft.txt"
       (Parsed
          [Assign [Name "b"] (List [num 1; num 2; num 3; num 4]);
           Assign [Name "A"] (List [List [num 1]; List [num 2]]);
           Assign [Name "B"] (List [List [num 1; num 2; num 3; num 4]]);
           Assign [Name "Wprime"]
             (List [List [num 1; num 2; num 3; Constant (VBool true)];
                    List [num 5; num 6; num 7; num 8]])])
     = Ok [].
Proof. repeat split. Qed.

Lemma C1_witness :
  check_row_from repr 1 0 ([VInt 3] ++ VStr "x" :: [VInt 4])
  = Ok (Some "Non-numeric at (1,1): 'x'").
Proof.
  exact (proj1 (proj1 (proj2 (proj2 (C1_booleans_count_as_numbers repr)))
                  1%nat [VInt 3] (VStr "x") [VInt 4]
                  (Forall_cons (VInt 3) eq_refl (Forall_nil _)) eq_refl)
           eq_refl).
Defined.

(** C2: assignments of a string, a boolean, a dict and a set are entries of
    the Assignment Map. *)
Lemma C2_non_numeric_literals_in_the_map :
  read_assignments_multiline str_exn "peft.txt"
    (Parsed
       [Assign [Name "s"] (Constant (VStr "hello"));
        Assign [Name "t"] (Constant (VBool true));
        Assign [Name "d"] (Dict [Some (Constant (VStr "k"))] [num 1]);
        Assign [Name "u"] (Set_ [num 1; num 2])])
  = ([("s", VStr "hello"); ("t", VBool true); ("d", VDict [(VStr "k", VInt 1)]);
      ("u", VSet [VInt 1; VInt 2])],
     None).
Proof. vm_compute. reflexivity. Qed.

Lemma C2_witness :
  exists out,
    read_assignments_multiline str_exn "peft.txt"
      (Parsed
         ([Assign [Name "s"] (Constant (VStr "old"))]
            ++ Assign [Name "s"] (Constant (VStr "hello"))
            :: [Assign [Name "t"] (Constant (VBool true))]))
    = (out, None) /\
    dict_get "s" out = Some (VStr "hello").
Proof.
  refine (proj1 (C2_python_literals_are_kept str_exn "peft.txt"
                   [Assign [Name "s"] (Constant (VStr "old"))]
                   [Assign [Name "t"] (Constant (VBool true))]
                   "s" (Constant (VStr "hello")) (VStr "hello") eq_refl _ _)).
  - intros n e [H|[H|[]]]; injection H as <- <-; eexists; reflexivity.
  - intros e0 [H|[]]. discriminate H.
Defined.

(** C3: a call and an operator that are values: [r = set()] and
    [r = 1 + 2j] are kept in the Assignment Map, and the file does not fail. *)
Lemma C3_call_and_operator_kept :
  read_assignments_multiline str_exn "peft_config.txt"
    (Parsed [Assign [Name "r"] (Call (Name "set") [] [])])
  = ([("r", VSet [])], None)
  /\ read_assignments_multiline str_exn "peft_config.txt"
       (Parsed [Assign [Name "r"] (BinOp (num 1) Add (Constant (VComplex 0 2)))])
     = ([("r", VComplex 1 2)], None).
Proof. split; vm_compute; reflexivity. Qed.

Lemma C3_witness :
  In (Assign [Name "r"] (BinOp (num 1) Add (num 1)))
     [Assign [Name "P"] (num 2); Assign [Name "r"] (BinOp (num 1) Add (num 1));
      Assign [Name "d_a"] (Name "r")]
  /\ literal_eval (BinOp (num 1) Add (num 1))
     = Raise (ValueError (Some (BinOp (num 1) Add (num 1))))
  /\ exists pre name' e' x' post,
      [Assign [Name "P"] (num 2); Assign [Name "r"] (BinOp (num 1) Add (num 1));
       Assign [Name "d_a"] (Name "r")]
      = (pre ++ Assign [Name name'] e' :: post)%list /\
      all_evaluate pre /\
      literal_eval e' = Raise x' /\
      read_assignments_multiline str_exn "peft_config.txt"
        (Parsed
           [Assign [Name "P"] (num 2); Assign [Name "r"] (BinOp (num 1) Add (num 1));
            Assign [Name "d_a"] (Name "r")])
      = ([], Some ("Could not parse value for " ++ name' ++ ": " ++ str_exn x')) /\
      check_peft_config str_exn "peft_config.txt"
        (Parsed
           [Assign [Name "P"] (num 2); Assign [Name "r"] (BinOp (num 1) Add (num 1));
            Assign [Name "d_a"] (Name "r")])
      = Ok ["Could not parse value for " ++ name' ++ ": " ++ str_exn x'] /\
      check_peft repr str_exn "peft_config.txt"
        (Parsed
           [Assign [Name "P"] (num 2); Assign [Name "r"] (BinOp (num 1) Add (num 1));
            Assign [Name "d_a"] (Name "r")])
      = Ok ["Could not parse value for " ++ name' ++ ": " ++ str_exn x'].
Proof.
  split; [simpl; tauto|]. split; [reflexivity|].
  apply (proj1 (C3_non_literal_fails_the_file str_exn repr "peft_config.txt"
                  [Assign [Name "P"] (num 2); Assign [Name "r"] (BinOp (num 1) Add (num 1));
                   Assign [Name "d_a"] (Name "r")]
                  "r" (BinOp (num 1) Add (num 1))
                  (ValueError (Some (BinOp (num 1) Add (num 1))))
                  (or_intror (or_introl eq_refl)) eq_refl)).
Defined.

Lemma C4_witness :
  check_peft_config_vars
    [("r", VInt (-3)); ("num_trainable_lora", VStr "many"); ("num_trainable_soft", VInt 16);
     ("d_a", VInt 6); ("num_trainable_adapters", VInt 12)]
  = Ok ["Missing variable: P"; "Missing variable: num_trainable_ia3"]
  /\ check_peft_vars repr
       [("b", VList [VInt 1; VInt 2; VInt 3]); ("A", VNone); ("Wprime", VInt 0)]
     = Ok ["Missing variable: B"].
Proof.
  split.
  - apply (proj1 (C4_missing_variables_short_circuit repr
                    [("r", VInt (-3)); ("num_trainable_lora", VStr "many");
                     ("num_trainable_soft", VInt 16); ("d_a", VInt 6);
                     ("num_trainable_adapters", VInt 12)])).
    exists "P". split; [simpl; tauto|reflexivity].
  - apply (proj2 (C4_missing_variables_short_circuit repr
                    [("b", VList [VInt 1; VInt 2; VInt 3]); ("A", VNone); ("Wprime", VInt 0)])).
    exists "B". split; [simpl; tauto|reflexivity].
Defined.

Lemma C5_witness :
  check_peft_config_vars
    [("r", VInt 4); ("num_trainable_lora", VInt 8); ("P", VInt 2);
     ("num_trainable_soft", VInt 16); ("d_a", VInt 6); ("num_trainable_adapters", VInt 12);
     ("num_trainable_ia3", VInt 0)]
  = Ok [].
Proof.
  apply C5_valid_config_passes.
  - exists 4. repeat split; lia.
  - exists 8. repeat split; lia.
  - exists 2. repeat split; lia.
  - exists 16. repeat split; lia.
  - exists 6. repeat split; lia.
  - exists 12. repeat split; lia.
  - exists 0. repeat split; lia.
Defined.

Lemma C6_witness :
  check_peft_config_vars
    [("r", VInt 3); ("num_trainable_lora", VInt 8); ("P", VInt 2);
     ("num_trainable_soft", VInt 16); ("d_a", VInt 6); ("num_trainable_adapters", VInt 12);
     ("num_trainable_ia3", VInt 0)]
  = Ok ["r must be even (got 3)."]
  /\ check_peft_config_vars
       [("r", VInt (-2)); ("num_trainable_lora", VInt 8); ("P", VInt 2);
        ("num_trainable_soft", VInt 16); ("d_a", VInt 6); ("num_trainable_adapters", VInt 12);
        ("num_trainable_ia3", VInt 0)]
     = Ok ["r must be >= 0 (got -2)."].
Proof.
  split.
  - refine (proj1 (proj2 (C6_parity_and_sign_independent
                            [("r", VInt 3); ("num_trainable_lora", VInt 8); ("P", VInt 2);
                             ("num_trainable_soft", VInt 16); ("d_a", VInt 6);
                             ("num_trainable_adapters", VInt 12); ("num_trainable_ia3", VInt 0)]
                            3 eq_refl _ _ _ _ _ _)) eq_refl).
    + exists 2. repeat split; lia.
    + exists 6. repeat split; lia.
    + exists 8. repeat split; lia.
    + exists 16. repeat split; lia.
    + exists 12. repeat split; lia.
    + exists 0. repeat split; lia.
  - refine (proj1 (proj2 (proj2 (C6_parity_and_sign_independent
                            [("r", VInt (-2)); ("num_trainable_lora", VInt 8); ("P", VInt 2);
                             ("num_trainable_soft", VInt 16); ("d_a", VInt 6);
                             ("num_trainable_adapters", VInt 12); ("num_trainable_ia3", VInt 0)]
                            (-2) eq_refl _ _ _ _ _ _))) eq_refl).
    + exists 2. repeat split; lia.
    + exists 6. repeat split; lia.
    + exists 8. repeat split; lia.
    + exists 16. repeat split; lia.
    + exists 12. repeat split; lia.
    + exists 0. repeat split; lia.
Defined.





Lemma C9_witness :
  exists out,
    read_assignments_multiline str_exn "peft.txt"
      (Parsed
         [Assign [Name "x"] (num 1);
          Import ["os"];
          Assign [Name "y"] (Constant (VStr "a"));
          Assign [Name "p"; Name "q"] (num 3);
          Expr (Call (Name "print") [Name "x"] []);
          Assign [Name "x"] (num 2)])
    = (out, None) /\
    keys out = ["x"; "y"] /\
    (forall n, dict_get n out
               = last_assigned n [("x", VInt 1); ("y", VStr "a"); ("x", VInt 2)]).
Proof.
  refine (proj1 (C9_assignments_in_order_last_write_wins str_exn "peft.txt"
                   [Assign [Name "x"] (num 1);
                    Import ["os"];
                    Assign [Name "y"] (Constant (VStr "a"));
                    Assign [Name "p"; Name "q"] (num 3);
                    Expr (Call (Name "print") [Name "x"] []);
                    Assign [Name "x"] (num 2)]
                   [("x", VInt 1); ("y", VStr "a"); ("x", VInt 2)] _)).
  repeat constructor.
Defined.

Lemma C10_witness :
  check_peft_config_vars
    [("r", VFloat (-3.5)); ("num_trainable_lora", VInt 8); ("P", VInt 2);
     ("num_trainable_soft", VInt 16); ("d_a", VInt 6); ("num_trainable_adapters", VInt 12);
     ("num_trainable_ia3", VInt 0)]
  = Ok ["r must be an integer (got float)."].
Proof.
  refine (proj2 (proj2 (proj2 (proj2 (proj2 (C10_type_error_excludes_sign_and_parity
                          [("r", VFloat (-3.5)); ("num_trainable_lora", VInt 8);
                           ("P", VInt 2); ("num_trainable_soft", VInt 16); ("d_a", VInt 6);
                           ("num_trainable_adapters", VInt 12); ("num_trainable_ia3", VInt 0)]
                          [] "r" (VFloat (-3.5)) eq_refl)))))
            eq_refl eq_refl _ _ _ _ _ _).
  - exists 2. repeat split; lia.
  - exists 6. repeat split; lia.
  - exists 8. repeat split; lia.
  - exists 16. repeat split; lia.
  - exists 12. repeat split; lia.
  - exists 0. repeat split; lia.
Defined.

(** ** Instances of the further statements *)

Example main_on_a_good_folder :
  main Sample.repr Sample.str_exn
    (disk [("sheet4/peft_config.txt", Parsed Sample.config_example);
           ("sheet4/peft.txt", Parsed Sample.peft_example)])
    "sheet4"
  = Ok (["✅ peft_config.txt: OK"; "✅ peft.txt: OK";
         nl ++ "All files are correctly formatted ✅"], 0).
Proof. vm_compute. reflexivity. Qed.

Example main_on_an_empty_folder :
  main Sample.repr Sample.str_exn (disk []) ""
  = Ok (["❌ peft config.txt / peft_config.txt: File not found";
         "❌ peft.txt: File not found";
         nl ++ "Formatting issues detected ❗"], 1).
Proof. vm_compute. reflexivity. Qed.

Lemma X1_witness :
  check_peft_config Sample.str_exn "sheet4/peft.txt" FileNotFound
  = Ok ["File not found: sheet4/peft.txt"]
  /\ check_peft Sample.repr Sample.str_exn "sheet4/peft.txt" FileNotFound
     = Ok ["File not found: sheet4/peft.txt"].
Proof.
  destruct (X1_diagnostic_is_the_only_error Sample.repr Sample.str_exn "sheet4/peft.txt"
              FileNotFound [] "File not found: sheet4/peft.txt" eq_refl)
    as (_ & _ & Hc & Hp & _).
  now split.
Defined.

Example config_with_a_long_integer_raises :
  check_peft_config Sample.str_exn "peft_config.txt"
    (Parsed (Assign [Name "r"] (UnaryOp USub (Constant (VInt (10 ^ 4300))))
               :: tl Sample.config_example))
  = Raise ValueError_digits.
Proof.
  change (10 ^ 4300) with (10 ^ int_max_str_digits). rewrite <- digit_bound_eq.
  reflexivity.
Qed.

Lemma X2_witness :
  (exists errors,
      check_peft_config Sample.str_exn "peft.txt" (Parsed Sample.peft_example) = Ok errors)
  /\ (exists errors,
         check_peft Sample.repr Sample.str_exn "peft.txt" (Parsed Sample.peft_example)
         = Ok errors).
Proof.
  refine (proj1 (proj2 (proj2 (X2_file_checks_raise_only_on_long_integers
                                 Sample.repr Sample.str_exn "peft.txt"
                                 (Parsed Sample.peft_example))))
            _ eq_refl _).
  intros k v H. simpl in H.
  repeat (destruct (String.eqb k _); [injection H as <-; reflexivity|]).
  discriminate H.
Defined.

Lemma X4_witness :
  check_peft_config_vars
    [("num_trainable_ia3", VInt 0); ("P", VFloat 3.5); ("r", VInt (-3));
     ("num_trainable_lora", VInt 8); ("num_trainable_soft", VInt 16); ("d_a", VInt 7);
     ("num_trainable_adapters", VStr "12")]
  = Ok ["r must be >= 0 (got -3)."; "P must be an integer (got float).";
        "num_trainable_adapters must be an integer (got str).";
        "r must be even (got -3)."; "d_a must be even (got 7)."].
Proof.
  exact (proj1 (X4_config_errors_in_pass_order
                  [("num_trainable_ia3", VInt 0); ("P", VFloat 3.5); ("r", VInt (-3));
                   ("num_trainable_lora", VInt 8); ("num_trainable_soft", VInt 16);
                   ("d_a", VInt 7); ("num_trainable_adapters", VStr "12")]
                  (VInt (-3)) (VFloat 3.5) (VInt 7) (VInt 8) (VInt 16) (VStr "12") (VInt 0)
                  eq_refl eq_refl eq_refl eq_refl eq_refl eq_refl eq_refl)).
Defined.

Lemma X5_witness :
  check_peft_vars Sample.repr
    [("b", VList [VInt 1]); ("A", VNone); ("B", VNone); ("Wprime", VNone)]
  = check_peft_vars Sample.repr
      [("note", VStr "draft"); ("Wprime", VNone); ("B", VNone); ("A", VNone);
       ("b", VList [VInt 1])].
Proof.
  apply (proj2 (X5_checks_depend_on_required_names_only Sample.repr
                  [("b", VList [VInt 1]); ("A", VNone); ("B", VNone); ("Wprime", VNone)]
                  [("note", VStr "draft"); ("Wprime", VNone); ("B", VNone); ("A", VNone);
                   ("b", VList [VInt 1])])).
  intros k Hk. simpl in Hk.
  repeat (destruct Hk as [<-|Hk]; [reflexivity|]). destruct Hk.
Defined.


Lemma X7_witness :
  false = true <-> "Element at position 1 is not numeric: 'x'" = "".
Proof.
  exact (proj1 (X7_flag_and_message_agree Sample.repr (VList [VInt 1; VStr "x"]) 2 0 0)
           false "Element at position 1 is not numeric: 'x'" eq_refl).
Defined.


Lemma X10_witness :
  check_peft Sample.repr Sample.str_exn "peft.txt"
    (Parsed (Import ["math"] :: Sample.peft_example))
  = Ok [].
Proof.
  apply (X10_well_formed_data_file_passes Sample.repr Sample.str_exn "peft.txt"
           (Import ["math"] :: Sample.peft_example)
           (List [Constant (VFloat 1.0); Sample.num 2; Constant (VFloat 3.5);
                  UnaryOp USub (Sample.num 4)])
           (List [List [Constant (VFloat 0.1)]; List [Constant (VFloat 0.2)]])
           (List [List [Sample.num 1; Sample.num 2; Sample.num 3; Sample.num 4]])
           (List [List [Sample.num 1; Sample.num 2; Sample.num 3; Sample.num 4];
                  List [Sample.num 5; Sample.num 6; Sample.num 7; Sample.num 8]])).
  - reflexivity.
  - eexists. repeat split.
  - eexists. repeat split. repeat constructor; eexists; repeat split.
  - eexists. repeat split. repeat constructor; eexists; repeat split.
  - eexists. repeat split. repeat constructor; eexists; repeat split.
Defined.

Lemma X11_witness :
  main Sample.repr Sample.str_exn
    (disk [("sheet4/peft_config.txt",
            Parsed (Assign [Name "r"] (UnaryOp USub (Constant (VInt (10 ^ 4300))))
                      :: tl Sample.config_example));
           ("sheet4/peft.txt", Parsed Sample.peft_example)])
    "sheet4"
  = Raise ValueError_digits.
Proof.
  apply (proj1 (proj2 (X11_main_report Sample.repr Sample.str_exn _ _))).
  change (10 ^ 4300) with (10 ^ int_max_str_digits). rewrite <- digit_bound_eq.
  reflexivity.
Defined.

Lemma X12_witness :
  last ["✅ peft_config.txt: OK"; "✅ peft.txt: OK";
        nl ++ "All files are correctly formatted ✅"] ""
  = nl ++ "All files are correctly formatted ✅".
Proof.
  refine (proj1 (proj2 (proj1 (X12_main_status Sample.repr Sample.str_exn
                                 (disk [("sheet4/peft_config.txt",
                                         Parsed Sample.config_example);
                                        ("sheet4/peft.txt", Parsed Sample.peft_example)])
                                 "sheet4")
                          _ 0 _))
            eq_refl).
  vm_compute. reflexivity.
Defined.

Lemma X13_witness :
  main Sample.repr Sample.str_exn
    (disk [("sheet4/peft config.txt", Parsed Sample.config_example);
           ("sheet4/peft.txt", Parsed Sample.peft_example)])
    "sheet4"
  = main Sample.repr Sample.str_exn
      (disk [("sheet4/peft config.txt", Parsed Sample.config_example);
             ("sheet4/peft_config.txt", SyntaxError "invalid syntax");
             ("sheet4/peft.txt", Parsed Sample.peft_example)])
      "sheet4".
Proof.
  apply X13_second_candidate_not_consulted.
  - reflexivity.
  - intros p Hp. simpl.
    destruct (String.eqb p "sheet4/peft config.txt"); [reflexivity|].
    destruct (String.eqb_spec p "sheet4/peft_config.txt") as [->|_]; [|reflexivity].
    exfalso. apply Hp. reflexivity.
Defined.

Lemma X14_witness :
  exists_ (disk [("sheet4/peft_config.txt", Parsed Sample.config_example)])
    "sheet4/peft_config.txt" = true
  /\ (("sheet4/peft_config.txt" = path.join "sheet4" "peft config.txt"
       /\ path.basename "sheet4/peft_config.txt" = "peft config.txt")
      \/ ("sheet4/peft_config.txt" = path.join "sheet4" "peft_config.txt"
          /\ path.basename "sheet4/peft_config.txt" = "peft_config.txt"
          /\ exists_ (disk [("sheet4/peft_config.txt", Parsed Sample.config_example)])
               (path.join "sheet4" "peft config.txt") = false)).
Proof.
  apply (X14_config_file_found
           (disk [("sheet4/peft_config.txt", Parsed Sample.config_example)]) "sheet4").
  reflexivity.
Defined.

Lemma X15_witness : path.basename (path.join "/home/student/sheet4/" "peft.txt") = "peft.txt".
Proof. apply X15_basename_of_join. reflexivity. Defined.
